(** * leash: the in-kernel enforcement probes

    A shallow embedding of the three LSM BPF programs of
    [internal/lsm/bpf] ([lsm_open.bpf.c], [lsm_exec.bpf.c],
    [lsm_connect.bpf.c]) and of the [sys_enter_execve] tracepoint, with
    the properties of the cgroup gate, the matchers, the exec correlation
    map and the event emitter.

    Conventions of the embedding.
    - An unsigned C integer ([u8], [u16], [u32], [u64]) is an [N], a
      signed one ([int], [s32]) a [Z]; the conversions between the two
      are written out ([int_of_u32], [u32_of_int]).
    - A [char] array is a [list ascii], read with [char_at]; reading past
      the end of the list yields NUL, so a short list stands for the
      zero-padded buffer.
    - A single-slot BPF array map is an [option] (the probes test the
      looked-up pointer against NULL); a rule array and a hash map are
      [gmap]s.
    - A bounded [for] loop is a [Fixpoint] on the number of iterations
      that remain, carrying the loop index. *)

From stdpp Require Import gmap list strings.
From Stdlib Require Import ZArith Ascii String.

Open Scope N_scope.

(** ** Integers, characters and buffers *)

Definition int_of_u32 (x : N) : Z :=
  if x <? 2 ^ 31 then Z.of_N x else (Z.of_N x - 2 ^ 32)%Z.

(** [policy_result ? 0 : -13] *)
Definition verdict_of (policy_result : Z) : Z :=
  (if policy_result =? 0 then -13 else 0)%Z.

Definition NUL : ascii := Ascii.zero.

Definition char_at (b : list ascii) (i : nat) : ascii := default NUL (b !! i).

Definition char_code (c : ascii) : N := N_of_ascii c.

Definition chars (s : string) : list ascii := list_ascii_of_string s.

(** The bytes a [for] loop copies when it stops after the first NUL, and
    the string a [*_str] helper leaves in a buffer of [size] bytes. *)
Fixpoint cstr (b : list ascii) : list ascii :=
  match b with
  | [] => []
  | c :: b' => if Ascii.eqb c NUL then [] else c :: cstr b'
  end.

Definition MAX_PATH_LEN : nat := 256.
Definition MAX_HOSTNAME_LEN : nat := 128.

Definition OP_OPEN : N := 0.
Definition OP_OPEN_RO : N := 1.
Definition OP_OPEN_RW : N := 2.

Definition FMODE_READ : N := 1.
Definition FMODE_WRITE : N := 2.
Definition AF_INET : N := 2.

(** ** What the helpers read from the current task *)

Record task := {
  current_cgroup_id : N;     (* bpf_get_current_cgroup_id() *)
  current_pid_tgid : N;      (* bpf_get_current_pid_tgid() *)
  current_comm : list ascii; (* bpf_get_current_comm() *)
  ktime_ns : N               (* bpf_ktime_get_ns() *)
}.

(** [pid_tgid >> 32], stored in a [u32] *)
Definition current_pid (t : task) : N := N.shiftr (current_pid_tgid t) 32.

(** [pid_tgid & 0xFFFFFFFF] *)
Definition current_tgid (t : task) : N := N.land (current_pid_tgid t) 4294967295.

(** What a probe hands back: the value returned to the kernel and the
    record submitted to the ring buffer, if any. *)
Record probe_result (E : Type) := ProbeResult {
  retval : Z;
  emitted : option E
}.
Arguments ProbeResult {E} _ _.
Arguments retval {E} _.
Arguments emitted {E} _.

(** [bpf_map_update_elem(&map, &key, &value, BPF_ANY)] on a hash map of
    [max_entries] slots: a key that is present is overwritten, a new key is
    inserted while there is room, and otherwise the map is left as it was. *)
Definition bpf_map_update_elem {V} (max_entries : nat)
    (m : gmap N V) (k : N) (v : V) : gmap N V :=
  match m !! k with
  | Some _ => <[k := v]> m
  | None => if (size m <? max_entries)%nat then <[k := v]> m else m
  end.

(** ** [simple_string_starts_with] (identical in the open and exec programs) *)

Fixpoint starts_with_loop (iters i : nat) (max_len : N) (s p : list ascii) : Z :=
  match iters with
  | O => 1%Z
  | S iters' =>
      if max_len <=? N.of_nat i then 1%Z
      else if negb (Ascii.eqb (char_at s i) (char_at p i)) then 0%Z
      else starts_with_loop iters' (S i) max_len s p
  end.

Definition simple_string_starts_with (s p : list ascii) (max_len : N) : Z :=
  let max_len := if 64 <? max_len then 64 else max_len in
  starts_with_loop 64 0 max_len s p.

(** * The file_open program *)

Record open_event := {
  oe_pid : N;
  oe_tgid : N;
  oe_timestamp : N;
  oe_cgroup_id : N;
  oe_comm : list ascii;
  oe_path : list ascii;
  oe_operation : N;
  oe_result : Z
}.

Record policy_rule := {
  action : N;
  operation : N;
  path_len : N;
  path : list ascii;
  is_directory : N
}.

Record open_maps := {
  target_cgroup : option N;
  allowed_cgroups : gmap N N;
  policy_rules : gmap nat policy_rule;
  num_rules : option N;
  default_policy : option N
}.

Definition is_target_cgroup (m : open_maps) (t : task) : bool :=
  match target_cgroup m with
  | None => false
  | Some target_cgroup_id =>
      if target_cgroup_id =? 0 then false
      else
        match allowed_cgroups m !! current_cgroup_id t with
        | Some allowed => if allowed =? 1 then true else false
        | None => false
        end
  end.

(** The [if]/[else if] chain that selects the prefix and its length. *)
Definition nsfs_prefix (prefix_idx : nat) : option (list ascii * nat) :=
  match prefix_idx with
  | 0%nat => Some (chars "mnt:[", 5%nat)
  | 1%nat => Some (chars "net:[", 5%nat)
  | 2%nat => Some (chars "ipc:[", 5%nat)
  | 3%nat => Some (chars "pid:[", 5%nat)
  | 4%nat => Some (chars "uts:[", 5%nat)
  | 5%nat => Some (chars "user:[", 6%nat)
  | 6%nat => Some (chars "cgroup:[", 8%nat)
  | 7%nat => Some (chars "time:[", 6%nat)
  | _ => None
  end.

(** [for (i = 0; i < 8; i++)]: the value of [matches] after the loop. *)
Fixpoint nsfs_prefix_loop (iters i : nat) (prefix_len : nat)
    (path prefix : list ascii) : bool :=
  match iters with
  | O => true
  | S iters' =>
      if (prefix_len <=? i)%nat then true
      else if negb (Ascii.eqb (char_at path i) (char_at prefix i)) then false
      else nsfs_prefix_loop iters' (S i) prefix_len path prefix
  end.

Definition is_digit_char (c : ascii) : bool :=
  (char_code "0" <=? char_code c) && (char_code c <=? char_code "9").

Definition not_any_digit (c : ascii) : bool :=
  forallb (fun d => negb (Ascii.eqb c d))
    (chars "0123456789").

(** [for (i = 0; i < 16; i++)]: [true] when the loop executes
    [return true], [false] when it is left by [break] or runs out. *)
Fixpoint nsfs_digit_loop (iters i : nat) (digit_pos : nat) (found_digit : bool)
    (path : list ascii) : bool :=
  match iters with
  | O => false
  | S iters' =>
      if (MAX_PATH_LEN <=? digit_pos + i)%nat then false
      else
        let c := char_at path (digit_pos + i) in
        if is_digit_char c then
          nsfs_digit_loop iters' (S i) digit_pos true path
        else if Ascii.eqb c "]" && found_digit then true
        else if Ascii.eqb c NUL then false
        else if not_any_digit c then false
        else nsfs_digit_loop iters' (S i) digit_pos found_digit path
  end.

(** [for (prefix_idx = 0; prefix_idx < 8; prefix_idx++)] *)
Fixpoint nsfs_loop (iters prefix_idx : nat) (path : list ascii) : bool :=
  match iters with
  | O => false
  | S iters' =>
      match nsfs_prefix prefix_idx with
      | None => nsfs_loop iters' (S prefix_idx) path
      | Some (prefix, prefix_len) =>
          if nsfs_prefix_loop 8 0 prefix_len path prefix
             && nsfs_digit_loop 16 0 prefix_len false path
          then true
          else nsfs_loop iters' (S prefix_idx) path
      end
  end.

Definition is_nsfs_path (path : list ascii) : bool := nsfs_loop 8 0 path.

(** The parts of [struct file] the probe reads: the result of [bpf_d_path]
    ([None] when it fails), the dentry name used as the fallback, and the
    mode bits. *)
Record file := {
  f_d_path : option (list ascii);
  f_d_name : list ascii;
  f_mode : N
}.

Definition get_file_operation_type (f : file) : N :=
  if negb (N.land (f_mode f) FMODE_WRITE =? 0) then OP_OPEN_RW
  else if negb (N.land (f_mode f) FMODE_READ =? 0) then OP_OPEN_RO
  else OP_OPEN.

(** The body of the rule loop of [check_path_policy] for the rule found at
    the current index: [Some v] is [return v], [None] goes on with the
    next index. *)
Definition path_rule_body (path_ : list ascii) (file_op_type : N)
    (rule : policy_rule) : option Z :=
  let len := path_len rule in
  if (len =? 0) || (64 <? len) then None
  else if negb (simple_string_starts_with path_ (path rule) len =? 0)%Z then
    if operation rule =? OP_OPEN then Some (int_of_u32 (action rule))
    else if operation rule =? file_op_type then Some (int_of_u32 (action rule))
    else None
  else None.

Fixpoint path_policy_loop (iters i : nat) (n : N) (m : open_maps)
    (path_ : list ascii) (file_op_type : N) : option Z :=
  match iters with
  | O => None
  | S iters' =>
      if n <=? N.of_nat i then None
      else
        match policy_rules m !! i with
        | None => path_policy_loop iters' (S i) n m path_ file_op_type
        | Some rule =>
            match path_rule_body path_ file_op_type rule with
            | Some v => Some v
            | None => path_policy_loop iters' (S i) n m path_ file_op_type
            end
        end
  end.

Definition open_default (m : open_maps) : Z :=
  match default_policy m with
  | Some d => int_of_u32 d
  | None => 0%Z
  end.

Definition check_path_policy (m : open_maps) (path_ : list ascii)
    (file_op_type : N) : Z :=
  let n := match num_rules m with Some n => n | None => 0 end in
  if n =? 0 then open_default m
  else
    let n := if 256 <? n then 256 else n in
    match path_policy_loop 256 0 n m path_ file_op_type with
    | Some v => v
    | None => open_default m
    end.

(** The three [comm] loops of [lsm_open]: [expected] is the conditional
    expression that yields the character wanted at index [i]; the result
    is the flag after the loop. *)
Definition apt_get_expected (i : nat) : ascii :=
  match i with
  | 0%nat => "a" | 1%nat => "p" | 2%nat => "t" | 3%nat => "-"
  | 4%nat => "g" | 5%nat => "e" | 6%nat => "t" | _ => NUL
  end.

Definition dpkg_expected (i : nat) : ascii :=
  match i with
  | 0%nat => "d" | 1%nat => "p" | 2%nat => "k" | 3%nat => "g" | _ => NUL
  end.

Definition update_expected (i : nat) : ascii :=
  match i with
  | 0%nat => "u" | 1%nat => "p" | 2%nat => "d" | 3%nat => "a"
  | 4%nat => "t" | 5%nat => "e" | _ => NUL
  end.

Fixpoint comm_loop (iters i : nat) (stop : nat) (expected : nat -> ascii)
    (comm : list ascii) : bool :=
  match iters with
  | O => true
  | S iters' =>
      if (stop <=? i)%nat then true
      else if negb (Ascii.eqb (char_at comm i) (expected i)) then false
      else comm_loop iters' (S i) stop expected comm
  end.

(** The contents of [path] after [bpf_d_path] and, when it fails, the read
    of the dentry name. *)
Definition open_resolved_path (f : file) : list ascii :=
  match f_d_path f with
  | Some p => p
  | None => f_d_name f
  end.

Definition lsm_open (m : open_maps) (t : task) (f : file)
    (reserve_ok : bool) : probe_result open_event :=
  if negb (is_target_cgroup m t) then ProbeResult 0 None
  else
    let path_ := open_resolved_path f in
    if is_nsfs_path path_ then ProbeResult 0 None
    else
      let file_op_type := get_file_operation_type f in
      let policy_result := check_path_policy m path_ file_op_type in
      if negb reserve_ok then ProbeResult (verdict_of policy_result) None
      else
        let comm := take 16 (current_comm t) in
        let is_apt_get := comm_loop 8 0 7 apt_get_expected comm in
        let is_dpkg := comm_loop 5 0 4 dpkg_expected comm in
        let is_update := comm_loop 7 0 6 update_expected comm in
        let policy_result :=
          if (is_apt_get && Ascii.eqb (char_at comm 7) NUL) || is_dpkg || is_update
          then 1%Z else policy_result in
        ProbeResult (verdict_of policy_result)
          (Some {| oe_pid := current_pid t;
                   oe_tgid := current_tgid t;
                   oe_timestamp := ktime_ns t;
                   oe_cgroup_id := current_cgroup_id t;
                   oe_comm := comm;
                   oe_path := cstr (take MAX_PATH_LEN path_);
                   oe_operation := file_op_type;
                   oe_result := verdict_of policy_result |}).

(** * The bprm_check_security program and the execve tracepoint *)

Record exec_event := {
  ee_pid : N;
  ee_padding : N;
  ee_timestamp : N;
  ee_cgroup_id : N;
  ee_comm : list ascii;
  ee_path : list ascii;
  ee_result : Z;
  ee_argc : Z;                     (* s32, holds the u32 [argc] *)
  ee_detailed_args : list (list ascii)
}.

Record exec_policy_rule := {
  er_action : N;
  er_operation : N;
  er_path_len : N;
  er_path : list ascii;
  er_is_directory : N;
  er_arg_count : N;
  er_has_wildcard : N;
  er_args : list (list ascii);     (* char args[4][32] *)
  er_arg_lens : list N             (* u32 arg_lens[4] *)
}.

Record pending_exec_args := {
  pe_timestamp : N;
  pe_argc : N;
  pe_original_path : list ascii;
  pe_detailed_args : list (list ascii)   (* char detailed_args[6][24] *)
}.

Record exec_maps := {
  exec_target_cgroup : option N;
  exec_allowed_cgroups : gmap N N;
  exec_policy_rules : gmap nat exec_policy_rule;
  exec_num_rules : option N;
  exec_default_policy : option N
}.

(** [rows[a]] of a two-dimensional [char] array *)
Definition row_at (rows : list (list ascii)) (a : nat) : list ascii :=
  default [] (rows !! a).

Definition len_at (lens : list N) (p : nat) : N := default 0 (lens !! p).

Definition is_exec_target_cgroup (m : exec_maps) (t : task) : bool :=
  match exec_target_cgroup m with
  | None => false
  | Some target_cgroup_id =>
      if target_cgroup_id =? 0 then false
      else
        match exec_allowed_cgroups m !! current_cgroup_id t with
        | Some allowed => if allowed =? 1 then true else false
        | None => false
        end
  end.

(** [for (j = 0; j < rule->arg_lens[p] && j < 16; j++)]: the value of
    [match] after the loop. *)
Fixpoint arg_bytes_loop (iters j : nat) (len : N) (actual pattern : list ascii) : bool :=
  match iters with
  | O => true
  | S iters' =>
      if negb ((N.of_nat j <? len) && (N.of_nat j <? 16)) then true
      else if negb (Ascii.eqb (char_at actual j) (char_at pattern j)) then false
      else arg_bytes_loop iters' (S j) len actual pattern
  end.

(** [for (a = 1; a < pending->argc && a < 4; a++)]: [true] when the loop
    executes [return 0]. *)
Fixpoint arg_actual_loop (iters a : nat) (pending : pending_exec_args)
    (rule : exec_policy_rule) (p : nat) : bool :=
  match iters with
  | O => false
  | S iters' =>
      if negb ((N.of_nat a <? pe_argc pending) && (N.of_nat a <? 4)) then false
      else if arg_bytes_loop 16 0 (len_at (er_arg_lens rule) p)
                (row_at (pe_detailed_args pending) a) (row_at (er_args rule) p)
      then true
      else arg_actual_loop iters' (S a) pending rule p
  end.

(** [for (p = 0; p < rule->arg_count && p < 3; p++)]: [true] when the
    nest executes [return 0]. *)
Fixpoint arg_pattern_loop (iters p : nat) (pending : pending_exec_args)
    (rule : exec_policy_rule) : bool :=
  match iters with
  | O => false
  | S iters' =>
      if negb ((N.of_nat p <? er_arg_count rule) && (N.of_nat p <? 3)) then false
      else if arg_actual_loop 4 1 pending rule p then true
      else arg_pattern_loop iters' (S p) pending rule
  end.

(** The body of the rule loop of [check_exec_policy] for the rule found at
    the current index; [pending] is the result of looking the current PID
    up in [pending_exec_args]. *)
Definition exec_rule_body (path_ : list ascii)
    (pending : option pending_exec_args) (rule : exec_policy_rule) : option Z :=
  if (er_path_len rule =? 0) || (64 <? er_path_len rule) then None
  else if negb (simple_string_starts_with path_ (er_path rule) (er_path_len rule) =? 0)%Z then
    if er_arg_count rule =? 0 then Some (int_of_u32 (er_action rule))
    else
      match pending with
      | Some pe =>
          if (1 <? pe_argc pe) && (0 <? er_arg_count rule) && (er_action rule =? 0)
          then if arg_pattern_loop 3 0 pe rule then Some 0%Z else None
          else None
      | None => None
      end
  else None.

(** [for (i = 0; i < n && i < 64; i++)] *)
Fixpoint exec_policy_loop (iters i : nat) (n : N) (m : exec_maps)
    (pending : option pending_exec_args) (path_ : list ascii) : option Z :=
  match iters with
  | O => None
  | S iters' =>
      if negb ((N.of_nat i <? n) && (N.of_nat i <? 64)) then None
      else
        match exec_policy_rules m !! i with
        | None => exec_policy_loop iters' (S i) n m pending path_
        | Some rule =>
            match exec_rule_body path_ pending rule with
            | Some v => Some v
            | None => exec_policy_loop iters' (S i) n m pending path_
            end
        end
  end.

Definition exec_default (m : exec_maps) : Z :=
  match exec_default_policy m with
  | Some d => int_of_u32 d
  | None => 0%Z
  end.

Definition check_exec_policy (m : exec_maps) (pend : gmap N pending_exec_args)
    (t : task) (path_ : list ascii) : Z :=
  let n := match exec_num_rules m with Some n => n | None => 0 end in
  if n =? 0 then exec_default m
  else
    let n := if 64 <? n then 64 else n in
    match exec_policy_loop 64 0 n m (pend !! current_pid t) path_ with
    | Some v => v
    | None => exec_default m
    end.

(** The parts of [struct linux_binprm] the probe reads: the result of
    [bpf_d_path] on [bprm->file->f_path], [bprm->filename] ([None] for a
    NULL pointer) and the dentry name. *)
Record linux_binprm := {
  bprm_d_path : option (list ascii);
  bprm_filename : option (list ascii);
  bprm_d_name : list ascii
}.

(** The contents of [path] after [bpf_d_path] and its two fallbacks. *)
Definition exec_resolved_path (bprm : linux_binprm) : list ascii :=
  match bprm_d_path bprm with
  | Some p => p
  | None =>
      match bprm_filename bprm with
      | Some filename => filename
      | None => bprm_d_name bprm
      end
  end.

(** The result of the hook together with the correlation map it leaves. *)
Definition lsm_exec (m : exec_maps) (pend : gmap N pending_exec_args) (t : task)
    (bprm : linux_binprm) (reserve_ok : bool)
    : probe_result exec_event * gmap N pending_exec_args :=
  if negb (is_exec_target_cgroup m t) then (ProbeResult 0 None, pend)
  else
    let path_ := exec_resolved_path bprm in
    let policy_result := check_exec_policy m pend t path_ in
    if negb reserve_ok then (ProbeResult (verdict_of policy_result) None, pend)
    else
      let pid := current_pid t in
      let '(argc, detailed_args, pend') :=
        match pend !! pid with
        | Some pending =>
            (int_of_u32 (pe_argc pending), pe_detailed_args pending, delete pid pend)
        | None => (0%Z, replicate 6 [], pend)
        end in
      (ProbeResult (verdict_of policy_result)
         (Some {| ee_pid := pid;
                  ee_padding := 0;
                  ee_timestamp := ktime_ns t;
                  ee_cgroup_id := current_cgroup_id t;
                  ee_comm := take 16 (current_comm t);
                  ee_path := take 255 path_;
                  ee_result := verdict_of policy_result;
                  ee_argc := argc;
                  ee_detailed_args := detailed_args |}),
       pend').

(** What reading [ctx->argv[i]] and the string it points to gives. *)
Inductive user_arg :=
  | ArgFault                       (* bpf_probe_read_user fails *)
  | ArgNull                        (* the pointer read is NULL *)
  | ArgUnreadable                  (* bpf_probe_read_user_str returns <= 0 *)
  | ArgString (s : list ascii).    (* the string is read *)

Record sys_enter_execve_args := {
  filename : option (list ascii);     (* None: NULL, or the read fails *)
  argv : option (list user_arg)       (* None: NULL *)
}.

(** [for (i = 0; i < 6; i++)] of the tracepoint: the rows filled and the
    count reached. A slot past the end of the list reads as the NULL that
    terminates [argv]. *)
Fixpoint capture_args_loop (iters i : nat) (args : list user_arg)
    (detailed_args : list (list ascii)) (argc : N) : list (list ascii) * N :=
  match iters with
  | O => (detailed_args, argc)
  | S iters' =>
      match default ArgNull (args !! i) with
      | ArgString s =>
          capture_args_loop iters' (S i) args
            (<[i := take 23 (cstr s)]> detailed_args) (argc + 1)
      | _ => (detailed_args, argc)
      end
  end.

(** The record the tracepoint builds before it stores it. *)
Definition pending_of_ctx (t : task) (ctx : sys_enter_execve_args) : pending_exec_args :=
  let original_path :=
    match filename ctx with
    | Some s => take 255 (cstr s)
    | None => []
    end in
  let '(detailed_args, argc) :=
    match argv ctx with
    | Some args => capture_args_loop 6 0 args (replicate 6 []) 0
    | None => (replicate 6 [], 0)
    end in
  let '(detailed_args, argc) :=
    if argc =? 0 then (<[0%nat := take 16 (current_comm t)]> detailed_args, 1)
    else (detailed_args, argc) in
  {| pe_timestamp := ktime_ns t;
     pe_argc := argc;
     pe_original_path := original_path;
     pe_detailed_args := detailed_args |}.

(** The value returned and the correlation map left by the tracepoint. *)
Definition trace_sys_enter_execve (m : exec_maps) (pend : gmap N pending_exec_args)
    (t : task) (ctx : sys_enter_execve_args) : Z * gmap N pending_exec_args :=
  if negb (is_exec_target_cgroup m t) then (0%Z, pend)
  else (0%Z, bpf_map_update_elem 1024 pend (current_pid t) (pending_of_ctx t ctx)).

(** * The socket_connect and socket_sendmsg programs *)

Record connect_event := {
  ce_pid : N;
  ce_tgid : N;
  ce_timestamp : N;
  ce_cgroup_id : N;
  ce_comm : list ascii;
  ce_family : N;
  ce_protocol : N;
  ce_dest_ip : N;
  ce_dest_port : N;
  ce_result : Z;
  ce_dest_hostname : list ascii
}.

Record connect_policy_rule := {
  cr_action : N;
  cr_operation : N;
  cr_dest_ip : N;
  cr_dest_port : N;
  cr_hostname : list ascii;
  cr_hostname_len : N;
  cr_is_wildcard : N
}.

Record connect_maps := {
  connect_target_cgroup : option N;
  connect_allowed_cgroups : gmap N N;
  connect_policy_rules : gmap nat connect_policy_rule;
  connect_num_rules : option Z;          (* s32 *)
  connect_default_policy : option N;
  dns_cache : gmap N (list ascii)
}.

Definition is_connect_target_cgroup (m : connect_maps) (t : task) : bool :=
  match connect_target_cgroup m with
  | None => false
  | Some target =>
      if target =? 0 then false
      else
        match connect_allowed_cgroups m !! current_cgroup_id t with
        | Some _ => true
        | None => false
        end
  end.

(** [for (i = 0; i < MAX_HOSTNAME_LEN && i < prefix_len; i++)] of
    [hostname_starts_with]: [false] when the loop executes [return false]. *)
Fixpoint hostname_prefix_loop (iters i : nat) (prefix_len : N)
    (hostname prefix : list ascii) : bool :=
  match iters with
  | O => true
  | S iters' =>
      if negb ((i <? MAX_HOSTNAME_LEN)%nat && (N.of_nat i <? prefix_len)) then true
      else if negb (Ascii.eqb (char_at hostname i) (char_at prefix i)) then false
      else if Ascii.eqb (char_at hostname i) NUL then false
      else hostname_prefix_loop iters' (S i) prefix_len hostname prefix
  end.

Definition hostname_starts_with (hostname prefix : list ascii) (prefix_len : N) : bool :=
  if prefix_len =? 0 then true
  else hostname_prefix_loop MAX_HOSTNAME_LEN 0 prefix_len hostname prefix.

(** [for (i = 0; i < MAX_HOSTNAME_LEN; i++)] of [hostname_matches_wildcard]:
    the value of [hostname_len] after the loop, which starts from 0. *)
Fixpoint hostname_len_loop (iters i : nat) (hostname : list ascii) : N :=
  match iters with
  | O => 0
  | S iters' =>
      if Ascii.eqb (char_at hostname i) NUL then N.of_nat i
      else hostname_len_loop iters' (S i) hostname
  end.

(** [for (i = 0; i < suffix_len && i < MAX_HOSTNAME_LEN; i++)]: [false] when
    the loop executes [return false]; [suffix] is [pattern + 2]. *)
Fixpoint hostname_suffix_loop (iters i : nat) (suffix_len : N) (start_pos : nat)
    (hostname pattern : list ascii) : bool :=
  match iters with
  | O => true
  | S iters' =>
      if negb ((N.of_nat i <? suffix_len) && (i <? MAX_HOSTNAME_LEN)%nat) then true
      else if negb (Ascii.eqb (char_at hostname (start_pos + i)) (char_at pattern (2 + i)))
      then false
      else hostname_suffix_loop iters' (S i) suffix_len start_pos hostname pattern
  end.

Definition hostname_matches_wildcard (hostname pattern : list ascii)
    (pattern_len : N) : bool :=
  if pattern_len <? 3 then false
  else if negb (Ascii.eqb (char_at pattern 0) "*")
          || negb (Ascii.eqb (char_at pattern 1) ".") then false
  else
    let suffix_len := pattern_len - 2 in
    let hostname_len := hostname_len_loop MAX_HOSTNAME_LEN 0 hostname in
    if hostname_len <? suffix_len then false
    else
      let start_pos := N.to_nat (hostname_len - suffix_len) in
      if negb (hostname_suffix_loop MAX_HOSTNAME_LEN 0 suffix_len start_pos
                 hostname pattern) then false
      else if hostname_len =? suffix_len then false
      else if (0 <? start_pos)%nat
              && negb (Ascii.eqb (char_at hostname (start_pos - 1)) ".") then false
      else true.

(** [(u32)num_rules] *)
Definition u32_of_int (x : Z) : N := Z.to_N (x mod 2 ^ 32).

Definition connect_rule_body (dest_ip dest_port : N)
    (rule : connect_policy_rule) : option Z :=
  if negb (cr_dest_ip rule =? 0) && negb (cr_dest_ip rule =? dest_ip) then None
  else if negb (cr_dest_port rule =? 0) && negb (cr_dest_port rule =? dest_port) then None
  else Some (int_of_u32 (cr_action rule)).

(** [for (i = 0; i < MAX_POLICY_RULES; i++)] *)
Fixpoint connect_policy_loop (iters i : nat) (num_rules_ : Z) (m : connect_maps)
    (dest_ip dest_port : N) : option Z :=
  match iters with
  | O => None
  | S iters' =>
      if u32_of_int num_rules_ <=? N.of_nat i then None
      else
        match connect_policy_rules m !! i with
        | None => connect_policy_loop iters' (S i) num_rules_ m dest_ip dest_port
        | Some rule =>
            match connect_rule_body dest_ip dest_port rule with
            | Some v => Some v
            | None => connect_policy_loop iters' (S i) num_rules_ m dest_ip dest_port
            end
        end
  end.

Definition connect_default (m : connect_maps) : Z :=
  match connect_default_policy m with
  | Some d => int_of_u32 d
  | None => 0%Z
  end.

Definition check_connect_policy (m : connect_maps) (dest_ip dest_port : N) : Z :=
  match connect_num_rules m with
  | None => 0%Z
  | Some num_rules_ =>
      if (num_rules_ <=? 0)%Z then connect_default m
      else
        match connect_policy_loop 256 0 num_rules_ m dest_ip dest_port with
        | Some v => v
        | None => connect_default m
        end
  end.

Record socket := { sk_protocol : N }.

Definition process_network_event (m : connect_maps) (t : task) (sock : socket)
    (dest_ip dest_port family : N) (reserve_ok : bool) : probe_result connect_event :=
  let hostname :=
    match dns_cache m !! dest_ip with
    | Some cached_hostname => cstr (take (MAX_HOSTNAME_LEN - 1) cached_hostname)
    | None => []
    end in
  let policy_result := check_connect_policy m dest_ip dest_port in
  if negb reserve_ok then ProbeResult (verdict_of policy_result) None
  else
    ProbeResult (verdict_of policy_result)
      (Some {| ce_pid := current_pid t;
               ce_tgid := current_tgid t;
               ce_timestamp := ktime_ns t;
               ce_cgroup_id := current_cgroup_id t;
               ce_comm := take 16 (current_comm t);
               ce_family := family;
               ce_protocol := sk_protocol sock;
               ce_dest_ip := dest_ip;
               ce_dest_port := dest_port;
               ce_result := verdict_of policy_result;
               ce_dest_hostname := hostname |}).

Record sockaddr_in := {
  sin_family : N;
  sin_port : N;
  sin_addr : N
}.

(** What the probe-safe readers return for an address: the [sa_family]
    read and the [sockaddr_in] read, [None] when the read fails. *)
Record sockaddr_mem := {
  read_family : option N;
  read_sockaddr_in : option sockaddr_in
}.

Definition lsm_connect (m : connect_maps) (t : task) (sock : socket)
    (address : sockaddr_mem) (reserve_ok : bool) : probe_result connect_event :=
  if negb (is_connect_target_cgroup m t) then ProbeResult 0 None
  else
    match read_family address with
    | None => ProbeResult 0 None
    | Some family =>
        if negb (family =? AF_INET) then ProbeResult 0 None
        else
          match read_sockaddr_in address with
          | None => ProbeResult 0 None
          | Some uaddr =>
              process_network_event m t sock (sin_addr uaddr) (sin_port uaddr)
                family reserve_ok
          end
    end.

(** Reading [msg_name] out of the message header: the read fails, the
    pointer is NULL, or it points to an address in kernel memory. *)
Inductive msghdr :=
  | MsgFault
  | MsgNoName
  | MsgName (msg_name : sockaddr_mem).

Definition lsm_sendmsg (m : connect_maps) (t : task) (sock : socket)
    (msg : msghdr) (reserve_ok : bool) : probe_result connect_event :=
  if negb (is_connect_target_cgroup m t) then ProbeResult 0 None
  else
    match msg with
    | MsgFault => ProbeResult 0 None
    | MsgNoName => ProbeResult 0 None
    | MsgName msg_name =>
        match read_family msg_name with
        | None => ProbeResult 0 None
        | Some family =>
            if negb (family =? AF_INET) then ProbeResult 0 None
            else
              match read_sockaddr_in msg_name with
              | None => ProbeResult 0 None
              | Some kaddr =>
                  process_network_event m t sock (sin_addr kaddr) (sin_port kaddr)
                    family reserve_ok
              end
        end
    end.

(** * The vocabulary of the properties, and sample inputs *)

(** [first_decision g i count] is the first [Some] among
    [g i, g (i+1), ..., g (i+count-1)]. The three rule loops compute it for
    the function that looks a rule up and runs the loop body on it. *)
Fixpoint first_decision (g : nat -> option Z) (i count : nat) : option Z :=
  match count with
  | O => None
  | S count' =>
      match g i with
      | Some v => Some v
      | None => first_decision g (S i) count'
      end
  end.

(** The rules of a table seen through a loop body. *)
Definition decision_at {R : Type} (rules : gmap nat R) (body : R -> option Z)
    (i : nat) : option Z :=
  match rules !! i with
  | Some rule => body rule
  | None => None
  end.

(** The first [min len 64] bytes agree, byte for byte. *)
Definition prefix_equal (observed rule_path : list ascii) (len : N) : Prop :=
  forall j : nat, N.of_nat j < N.min len 64 -> char_at observed j = char_at rule_path j.

(** The mode the open matcher compares a rule's operation with: decided by
    the write bit first, then by the read bit. *)
Definition observed_mode (mode_bits : N) : N :=
  if N.testbit mode_bits 1 then OP_OPEN_RW
  else if N.testbit mode_bits 0 then OP_OPEN_RO
  else OP_OPEN.

(** An open rule decides: its length is usable, its path is a prefix of
    the observed path, and its operation is OPEN or the observed mode. *)
Definition open_rule_hits (observed : list ascii) (mode : N) (r : policy_rule) : Prop :=
  1 <= path_len r <= 64 /\
  prefix_equal observed (path r) (path_len r) /\
  (operation r = OP_OPEN \/ operation r = mode).

(** The table without the rule at index [i]: the slot is absent. *)
Definition without_open_rule (i : nat) (m : open_maps) : open_maps :=
  {| target_cgroup := target_cgroup m;
     allowed_cgroups := allowed_cgroups m;
     policy_rules := delete i (policy_rules m);
     num_rules := num_rules m;
     default_policy := default_policy m |}.

(** A monitored task: cgroup 42, PID 100. *)
Definition sample_task (comm : string) : task :=
  {| current_cgroup_id := 42;
     current_pid_tgid := 429496729700;
     current_comm := chars comm;
     ktime_ns := 5 |}.

Definition sample_file (name : string) (mode : N) : file :=
  {| f_d_path := Some (chars name); f_d_name := []; f_mode := mode |}.

Definition deny_var_log_rw : policy_rule :=
  {| action := 0; operation := OP_OPEN_RW; path_len := 9;
     path := chars "/var/log/"; is_directory := 1 |}.

Definition open_table (rules : gmap nat policy_rule) (n : N) (d : option N) : open_maps :=
  {| target_cgroup := Some 7;
     allowed_cgroups := {[ 42 := 1 ]};
     policy_rules := rules;
     num_rules := Some n;
     default_policy := d |}.

(** The exec table without the rule at index [i]. *)
Definition without_exec_rule (i : nat) (m : exec_maps) : exec_maps :=
  {| exec_target_cgroup := exec_target_cgroup m;
     exec_allowed_cgroups := exec_allowed_cgroups m;
     exec_policy_rules := delete i (exec_policy_rules m);
     exec_num_rules := exec_num_rules m;
     exec_default_policy := exec_default_policy m |}.

(** Pattern [p] of the rule and actual argument [a] agree on the first
    [min arg_lens[p] 16] bytes. *)
Definition arg_equal (pe : pending_exec_args) (r : exec_policy_rule) (p a : nat) : Prop :=
  forall j : nat, N.of_nat j < N.min (len_at (er_arg_lens r) p) 16 ->
    char_at (row_at (pe_detailed_args pe) a) j = char_at (row_at (er_args r) p) j.

(** One of the first [min arg_count 3] patterns agrees with one of the
    actual arguments [argv[a]], [1 <= a < min argc 4]. *)
Definition blacklisted (pe : pending_exec_args) (r : exec_policy_rule) : Prop :=
  exists p a : nat,
    N.of_nat p < N.min (er_arg_count r) 3 /\
    (1 <= a)%nat /\ N.of_nat a < N.min (pe_argc pe) 4 /\
    arg_equal pe r p a.

(** The path test of an exec rule: a usable length and a byte-exact prefix. *)
Definition exec_path_matches (observed : list ascii) (r : exec_policy_rule) : Prop :=
  1 <= er_path_len r <= 64 /\ prefix_equal observed (er_path r) (er_path_len r).

(** An exec rule decides with value [v]: its path matches and either it
    has no argument patterns and [v] is its action, or it is a deny rule
    with patterns, a correlated entry exists, and one pattern is found
    among the actual arguments ([v] is 0). *)
Definition exec_rule_decides (observed : list ascii)
    (pending : option pending_exec_args) (r : exec_policy_rule) (v : Z) : Prop :=
  exec_path_matches observed r /\
  ((er_arg_count r = 0 /\ v = int_of_u32 (er_action r)) \/
   (0 < er_arg_count r /\ er_action r = 0 /\ v = 0%Z /\
    exists pe, pending = Some pe /\ blacklisted pe r)).

(** The matcher reaches index [i]: no rule below it decides. *)
Definition exec_reaches (m : exec_maps) (observed : list ascii)
    (pending : option pending_exec_args) (i : nat) : Prop :=
  forall (j : nat) (r' : exec_policy_rule) (v' : Z),
    (j < i)%nat -> exec_policy_rules m !! j = Some r' ->
    ~ exec_rule_decides observed pending r' v'.

Definition exec_table (rules : gmap nat exec_policy_rule) (n : N) (d : option N) : exec_maps :=
  {| exec_target_cgroup := Some 7;
     exec_allowed_cgroups := {[ 42 := 1 ]};
     exec_policy_rules := rules;
     exec_num_rules := Some n;
     exec_default_policy := d |}.

Definition exec_rule (act : N) (prefix : string) (patterns : list string) : exec_policy_rule :=
  {| er_action := act;
     er_operation := 3;
     er_path_len := N.of_nat (String.length prefix);
     er_path := chars prefix;
     er_is_directory := 1;
     er_arg_count := N.of_nat (List.length patterns);
     er_has_wildcard := 0;
     er_args := map chars patterns;
     er_arg_lens := map (fun s => N.of_nat (String.length s)) patterns |}.

Definition pending_args (args : list string) : pending_exec_args :=
  {| pe_timestamp := 4;
     pe_argc := N.of_nat (List.length args);
     pe_original_path := [];
     pe_detailed_args := map chars args |}.

(** A rule the controller never filled in. *)
Definition zero_length_rule : policy_rule :=
  {| action := 0; operation := OP_OPEN; path_len := 0; path := []; is_directory := 0 |}.

(** A connect rule matches an endpoint: its address is 0 or the observed
    one, and its port is 0 or the observed one. *)
Definition connect_rule_matches (dest_ip dest_port : N) (r : connect_policy_rule) : Prop :=
  (cr_dest_ip r = 0 \/ cr_dest_ip r = dest_ip) /\
  (cr_dest_port r = 0 \/ cr_dest_port r = dest_port).

Definition connect_rule (act ip port : N) : connect_policy_rule :=
  {| cr_action := act; cr_operation := 4; cr_dest_ip := ip; cr_dest_port := port;
     cr_hostname := []; cr_hostname_len := 0; cr_is_wildcard := 0 |}.

Definition connect_table (allowed : gmap N N) (rules : gmap nat connect_policy_rule)
    (n : Z) (d : option N) : connect_maps :=
  {| connect_target_cgroup := Some 7;
     connect_allowed_cgroups := allowed;
     connect_policy_rules := rules;
     connect_num_rules := Some n;
     connect_default_policy := d;
     dns_cache := ∅ |}.

(** The eight namespace types of nsfs paths. *)
Definition nsfs_prefixes : list string :=
  ["mnt:["; "net:["; "ipc:["; "pid:["; "uts:["; "user:["; "cgroup:["; "time:["]%string.

(** An ASCII digit, by its code. *)
Definition ascii_digit (c : ascii) : Prop := 48 <= char_code c <= 57.

(** The command names the override is meant for: ["apt-get"] exactly, or
    a name that begins with ["dpkg"] or with ["update"]. *)
Definition package_manager_comm (comm : list ascii) : Prop :=
  cstr comm = chars "apt-get" \/
  chars "dpkg" `prefix_of` comm \/
  chars "update" `prefix_of` comm.

Definition sample_ctx : sys_enter_execve_args :=
  {| filename := Some (chars "/bin/ls");
     argv := Some [ArgString (chars "ls"); ArgString (chars "-l"); ArgNull] |}.

Definition sample_bprm : linux_binprm :=
  {| bprm_d_path := Some (chars "/bin/ls");
     bprm_filename := Some (chars "/bin/ls");
     bprm_d_name := chars "ls" |}.

Definition sample_address (ip port : N) : sockaddr_mem :=
  {| read_family := Some AF_INET;
     read_sockaddr_in := Some {| sin_family := AF_INET; sin_port := port; sin_addr := ip |} |}.

(** * Further vocabulary *)

(** The shape [is_nsfs_path] accepts, read off the buffer: one of the
    eight prefixes, then [n] digits with [1 <= n <= 15], then [']']. *)
Definition nsfs_pattern (path_ : list ascii) : Prop :=
  exists (prefix : string) (n : nat),
    In prefix nsfs_prefixes /\
    (1 <= n <= 15)%nat /\
    (forall i, (i < List.length (chars prefix))%nat ->
       char_at path_ i = char_at (chars prefix) i) /\
    (forall k, (k < n)%nat ->
       ascii_digit (char_at path_ (List.length (chars prefix) + k)%nat)) /\
    char_at path_ (List.length (chars prefix) + n)%nat = "]"%char.

(** The strings at the head of [argv], up to the first slot that is not a
    readable string. *)
Fixpoint leading_strings (args : list user_arg) : list (list ascii) :=
  match args with
  | ArgString s :: rest => s :: leading_strings rest
  | _ => []
  end.

(** What [bpf_probe_read_user_str(dst, 24, src)] leaves in a row: the
    string, cut to 23 bytes. *)
Definition stored_arg (s : list ascii) : list ascii := take 23 (cstr s).

(** * Properties *)

(** ** Boolean tests *)

Lemma int_of_u32_small (x : N) : x < 2 ^ 31 -> int_of_u32 x = Z.of_N x.
Proof.
  intros Hx. unfold int_of_u32.
  destruct (x <? 2 ^ 31) eqn:E; [reflexivity | apply N.ltb_ge in E; lia].
Qed.

(** Turn every boolean comparison that appears in the hypotheses into the
    arithmetic fact it stands for. *)
Ltac bool_facts :=
  repeat match goal with
  | H : negb _ = true |- _ => apply negb_true_iff in H
  | H : negb _ = false |- _ => apply negb_false_iff in H
  | H : _ && _ = true |- _ => apply andb_true_iff in H; destruct H
  | H : _ || _ = false |- _ => apply orb_false_iff in H; destruct H
  | H : (_ <? _) = true |- _ => apply N.ltb_lt in H
  | H : (_ <? _) = false |- _ => apply N.ltb_ge in H
  | H : (_ <=? _) = true |- _ => apply N.leb_le in H
  | H : (_ <=? _) = false |- _ => apply N.leb_gt in H
  | H : (_ =? _) = true |- _ => apply N.eqb_eq in H
  | H : (_ =? _) = false |- _ => apply N.eqb_neq in H
  | H : (_ <=? _)%Z = true |- _ => apply Z.leb_le in H
  | H : (_ <=? _)%Z = false |- _ => apply Z.leb_gt in H
  | H : (_ =? _)%Z = true |- _ => apply Z.eqb_eq in H
  | H : (_ =? _)%Z = false |- _ => apply Z.eqb_neq in H
  | H : (_ <=? _)%nat = true |- _ => apply Nat.leb_le in H
  | H : (_ <=? _)%nat = false |- _ => apply Nat.leb_gt in H
  | H : (_ <? _)%nat = true |- _ => apply Nat.ltb_lt in H
  | H : (_ <? _)%nat = false |- _ => apply Nat.ltb_ge in H
  | H : Ascii.eqb _ _ = true |- _ => apply Ascii.eqb_eq in H
  | H : Ascii.eqb _ _ = false |- _ => apply Ascii.eqb_neq in H
  end.

(** ** Byte-exact prefix comparison *)

Lemma starts_with_loop_nonzero (iters i : nat) (max_len : N) (s p : list ascii) :
  starts_with_loop iters i max_len s p <> 0%Z <->
  (forall j : nat, (i <= j < i + iters)%nat -> N.of_nat j < max_len ->
     char_at s j = char_at p j).
Proof.
  revert i. induction iters as [|iters IH]; intros i; simpl.
  - split; [intros _ j Hj; lia | discriminate].
  - destruct (max_len <=? N.of_nat i) eqn:Hge.
    + bool_facts. split; [intros _ j Hj Hlt; lia | discriminate].
    + destruct (Ascii.eqb (char_at s i) (char_at p i)) eqn:Heq; simpl; bool_facts.
      * rewrite IH. split; intros H j Hj Hlt.
        -- destruct (decide (j = i)) as [->|Hne]; [assumption | apply H; [lia | assumption]].
        -- apply H; [lia | assumption].
      * split; [intros H; contradiction H; reflexivity |].
        intros H. exfalso. apply Heq, H; lia.
Qed.

Lemma simple_string_starts_with_nonzero (s p : list ascii) (max_len : N) :
  simple_string_starts_with s p max_len <> 0%Z <->
  (forall j : nat, N.of_nat j < N.min max_len 64 -> char_at s j = char_at p j).
Proof.
  unfold simple_string_starts_with. rewrite starts_with_loop_nonzero.
  destruct (64 <? max_len) eqn:Hgt; bool_facts.
  - rewrite N.min_r by lia. split; intros H j; [intros Hj; apply H; lia | intros _ Hj; apply H; lia].
  - rewrite N.min_l by lia. split; intros H j; [intros Hj; apply H; lia | intros _ Hj; apply H; lia].
Qed.

Lemma simple_string_starts_with_bool (s p : list ascii) (max_len : N) :
  negb (simple_string_starts_with s p max_len =? 0)%Z = true <->
  (forall j : nat, N.of_nat j < N.min max_len 64 -> char_at s j = char_at p j).
Proof.
  rewrite <- simple_string_starts_with_nonzero, negb_true_iff, Z.eqb_neq. reflexivity.
Qed.

(** ** First match over a rule array *)

Lemma first_decision_none (g : nat -> option Z) (i count : nat) :
  (forall j, (i <= j < i + count)%nat -> g j = None) ->
  first_decision g i count = None.
Proof.
  revert i. induction count as [|count IH]; intros i H; simpl; [reflexivity |].
  rewrite (H i) by lia. apply IH. intros j Hj. apply H. lia.
Qed.

Lemma first_decision_hit (g : nat -> option Z) (i count k : nat) (v : Z) :
  (i <= k < i + count)%nat -> g k = Some v ->
  (forall j, (i <= j < k)%nat -> g j = None) ->
  first_decision g i count = Some v.
Proof.
  revert i. induction count as [|count IH]; intros i Hk Hg Hbefore; simpl; [lia |].
  destruct (decide (k = i)) as [->|Hne].
  - rewrite Hg. reflexivity.
  - rewrite (Hbefore i) by lia. apply IH; [lia | assumption |].
    intros j Hj. apply Hbefore. lia.
Qed.

Lemma first_decision_ext (g g' : nat -> option Z) (i count : nat) :
  (forall j, (i <= j < i + count)%nat -> g j = g' j) ->
  first_decision g i count = first_decision g' i count.
Proof.
  revert i. induction count as [|count IH]; intros i H; simpl; [reflexivity |].
  rewrite (H i) by lia. destruct (g' i); [reflexivity |].
  apply IH. intros j Hj. apply H. lia.
Qed.

Lemma decision_at_delete {R : Type} (rules : gmap nat R) (body : R -> option Z)
    (i : nat) (r : R) :
  rules !! i = Some r -> body r = None ->
  forall j, decision_at (delete i rules) body j = decision_at rules body j.
Proof.
  intros Hi Hr j. unfold decision_at.
  destruct (decide (i = j)) as [<-|Hne].
  - rewrite lookup_delete_eq, Hi, Hr. reflexivity.
  - rewrite lookup_delete_ne by assumption. reflexivity.
Qed.

(** ** The open matcher as a first match *)

Lemma path_policy_loop_first (iters i : nat) (n : N) (m : open_maps)
    (observed : list ascii) (file_op_type : N) :
  path_policy_loop iters i n m observed file_op_type =
  first_decision (decision_at (policy_rules m) (path_rule_body observed file_op_type))
    i (Nat.min iters (N.to_nat n - i)).
Proof.
  revert i. induction iters as [|iters IH]; intros i; simpl; [reflexivity |].
  destruct (n <=? N.of_nat i) eqn:Hge; bool_facts.
  - replace (N.to_nat n - i)%nat with 0%nat by lia. reflexivity.
  - replace (N.to_nat n - i)%nat with (S (N.to_nat n - S i)) by lia. simpl.
    unfold decision_at at 1. rewrite IH.
    destruct (policy_rules m !! i) as [rule|]; [|reflexivity].
    destruct (path_rule_body observed file_op_type rule); reflexivity.
Qed.

Lemma check_path_policy_first (m : open_maps) (observed : list ascii) (file_op_type : N) :
  check_path_policy m observed file_op_type =
  match first_decision (decision_at (policy_rules m) (path_rule_body observed file_op_type))
          0 (N.to_nat (N.min (default 0 (num_rules m)) 256)) with
  | Some v => v
  | None => open_default m
  end.
Proof.
  unfold check_path_policy.
  replace (match num_rules m with Some n => n | None => 0 end)
    with (default 0 (num_rules m)) by (destruct (num_rules m); reflexivity).
  set (n := default 0 (num_rules m)).
  destruct (n =? 0) eqn:Hz; bool_facts.
  - rewrite Hz. reflexivity.
  - rewrite path_policy_loop_first.
    destruct (256 <? n) eqn:Hgt; bool_facts.
    + rewrite N.min_r by lia. reflexivity.
    + rewrite N.min_l by lia.
      replace (Nat.min 256 (N.to_nat n - 0)) with (N.to_nat n) by lia. reflexivity.
Qed.

Lemma land_pow2_eqb (x k : N) :
  (N.land x (2 ^ k) =? 0) = negb (N.testbit x k).
Proof.
  destruct (N.testbit x k) eqn:Hbit; simpl.
  - apply N.eqb_neq. intros Hz.
    assert (Hb : N.testbit (N.land x (2 ^ k)) k = true).
    { rewrite N.land_spec, Hbit, N.pow2_bits_true. reflexivity. }
    rewrite Hz, N.bits_0 in Hb. discriminate.
  - apply N.eqb_eq, N.bits_inj. intros n.
    rewrite N.land_spec, N.bits_0, N.pow2_bits_eqb.
    destruct (N.eqb_spec k n) as [->|_]; [rewrite Hbit; reflexivity | apply andb_false_r].
Qed.

Lemma get_file_operation_type_observed (f : file) :
  get_file_operation_type f = observed_mode (f_mode f).
Proof.
  unfold get_file_operation_type, observed_mode, FMODE_WRITE, FMODE_READ.
  change 2 with (2 ^ 1). change 1 with (2 ^ 0) at 2.
  rewrite !land_pow2_eqb, !negb_involutive. reflexivity.
Qed.

Lemma path_rule_body_hit (observed : list ascii) (mode : N) (r : policy_rule) :
  open_rule_hits observed mode r ->
  path_rule_body observed mode r = Some (int_of_u32 (action r)).
Proof.
  intros (Hlen & Hpre & Hop). unfold path_rule_body.
  destruct ((path_len r =? 0) || (64 <? path_len r)) eqn:Hbad.
  { apply orb_true_iff in Hbad as [H|H]; bool_facts; lia. }
  apply simple_string_starts_with_bool in Hpre. rewrite Hpre.
  destruct Hop as [-> | ->]; [reflexivity |].
  rewrite N.eqb_refl. destruct (mode =? OP_OPEN); reflexivity.
Qed.

Lemma path_rule_body_miss (observed : list ascii) (mode : N) (r : policy_rule) :
  ~ open_rule_hits observed mode r ->
  path_rule_body observed mode r = None.
Proof.
  intros Hmiss. unfold path_rule_body.
  destruct ((path_len r =? 0) || (64 <? path_len r)) eqn:Hbad; [reflexivity |].
  destruct (negb (simple_string_starts_with observed (path r) (path_len r) =? 0)%Z) eqn:Hpre;
    [|reflexivity].
  pose proof (proj1 (simple_string_starts_with_bool _ _ _) Hpre) as Heq.
  destruct (operation r =? OP_OPEN) eqn:Ho.
  { exfalso. apply Hmiss. bool_facts. split; [lia | split; [exact Heq | left; assumption]]. }
  destruct (operation r =? mode) eqn:Hm; [|reflexivity].
  exfalso. apply Hmiss. bool_facts. split; [lia | split; [exact Heq | right; assumption]].
Qed.

Lemma path_rule_body_Some_prefix (observed : list ascii) (mode : N) (r : policy_rule) (v : Z) :
  path_rule_body observed mode r = Some v ->
  prefix_equal observed (path r) (path_len r).
Proof.
  unfold path_rule_body.
  destruct ((path_len r =? 0) || (64 <? path_len r)); [discriminate |].
  destruct (negb (simple_string_starts_with observed (path r) (path_len r) =? 0)%Z) eqn:Hpre;
    [| discriminate].
  intros _. exact (proj1 (simple_string_starts_with_bool _ _ _) Hpre).
Qed.

Lemma path_rule_body_bad_len (observed : list ascii) (mode : N) (r : policy_rule) :
  path_len r = 0 \/ 64 < path_len r -> path_rule_body observed mode r = None.
Proof.
  intros H. apply path_rule_body_miss. intros (Hlen & _). lia.
Qed.

Lemma check_path_policy_skip (m : open_maps) (observed : list ascii) (mode : N)
    (i : nat) (r : policy_rule) :
  policy_rules m !! i = Some r -> path_rule_body observed mode r = None ->
  check_path_policy (without_open_rule i m) observed mode = check_path_policy m observed mode.
Proof.
  intros Hi Hr. rewrite !check_path_policy_first.
  unfold without_open_rule, open_default.
  cbn [policy_rules num_rules default_policy].
  rewrite (first_decision_ext _ (decision_at (policy_rules m) (path_rule_body observed mode)));
    [reflexivity |].
  intros j _. apply (decision_at_delete _ _ i r); assumption.
Qed.

(** C6. In the open matcher the observed mode is OPEN_RW when the write
    bit of the file mode is set, else OPEN_RO when the read bit is set,
    else OPEN. Among the rules at the indices below [min num_rules 256], the
    first one whose path prefix matches and whose operation is OPEN or
    equals the observed mode decides, and the matcher returns its action
    (as the [int] the C function returns); a rule whose path matches but
    whose operation does not is passed over, since it is not such a rule.
    When there is no such rule the matcher returns the default-policy
    slot, or 0 (deny) when the slot is absent. *)
Theorem check_path_policy_first_match (m : open_maps) (observed : list ascii) (f : file) :
  let mode := get_file_operation_type f in
  let n := default 0 (num_rules m) in
  mode = observed_mode (f_mode f) /\
  (forall (i : nat) (r : policy_rule),
     N.of_nat i < N.min n 256 ->
     policy_rules m !! i = Some r ->
     open_rule_hits observed mode r ->
     (forall (j : nat) (r' : policy_rule),
        (j < i)%nat -> policy_rules m !! j = Some r' ->
        ~ open_rule_hits observed mode r') ->
     check_path_policy m observed mode = int_of_u32 (action r)) /\
  ((forall (j : nat) (r' : policy_rule),
      N.of_nat j < N.min n 256 -> policy_rules m !! j = Some r' ->
      ~ open_rule_hits observed mode r') ->
   check_path_policy m observed mode =
   match default_policy m with
   | Some d => int_of_u32 d
   | None => 0%Z
   end).
Proof.
  intros mode n. split; [apply get_file_operation_type_observed |]. split.
  - intros i r Hi Hr Hhit Hbefore. rewrite check_path_policy_first. fold n.
    rewrite (first_decision_hit _ 0 _ i (int_of_u32 (action r))); [reflexivity | lia | |].
    + unfold decision_at. rewrite Hr. apply path_rule_body_hit, Hhit.
    + intros j Hj. unfold decision_at.
      destruct (policy_rules m !! j) as [r'|] eqn:Hj'; [|reflexivity].
      apply path_rule_body_miss. apply (Hbefore j r'); [lia | assumption].
  - intros Hnone. rewrite check_path_policy_first. fold n.
    rewrite first_decision_none; [reflexivity |].
    intros j Hj. unfold decision_at.
    destruct (policy_rules m !! j) as [r'|] eqn:Hj'; [|reflexivity].
    apply path_rule_body_miss. apply (Hnone j r'); [lia | assumption].
Qed.

(** Decide a [prefix_equal] between two literal strings whose first [n]
    bytes are compared. *)
Tactic Notation "prefix_cases" integer(n) :=
  let j := fresh "j" in
  let Hj := fresh "Hj" in
  intros j Hj; cbn in Hj;
  do n (destruct j as [|j]; [reflexivity |]); exfalso; lia.

Lemma check_path_policy_first_match_witness :
  check_path_policy (open_table {[ 0%nat := deny_var_log_rw ]} 1 (Some 1))
    (chars "/var/log/syslog") (get_file_operation_type (sample_file "/var/log/syslog" 3))
  = int_of_u32 (action deny_var_log_rw) /\
  check_path_policy (open_table {[ 0%nat := deny_var_log_rw ]} 1 (Some 1))
    (chars "/var/log/syslog") (get_file_operation_type (sample_file "/var/log/syslog" 1))
  = int_of_u32 1.
Proof.
  split.
  - destruct (check_path_policy_first_match
                (open_table {[ 0%nat := deny_var_log_rw ]} 1 (Some 1))
                (chars "/var/log/syslog") (sample_file "/var/log/syslog" 3))
      as (_ & Hfirst & _).
    apply (Hfirst 0%nat deny_var_log_rw).
    + reflexivity.
    + reflexivity.
    + split; [cbn; lia | split; [| right; reflexivity]].
      unfold prefix_equal. prefix_cases 9.
    + intros j r' Hj. lia.
  - destruct (check_path_policy_first_match
                (open_table {[ 0%nat := deny_var_log_rw ]} 1 (Some 1))
                (chars "/var/log/syslog") (sample_file "/var/log/syslog" 1))
      as (_ & _ & Hnone).
    apply Hnone. intros j r' Hj Hr' (_ & _ & Hop).
    destruct j as [|j]; [| cbn in Hj; lia].
    vm_compute in Hr'. injection Hr' as <-.
    destruct Hop as [Hop | Hop]; vm_compute in Hop; discriminate.
Defined.

(** ** The exec matcher as a first match *)

Lemma exec_policy_loop_first (iters i : nat) (n : N) (m : exec_maps)
    (pending : option pending_exec_args) (observed : list ascii) :
  exec_policy_loop iters i n m pending observed =
  first_decision (decision_at (exec_policy_rules m) (exec_rule_body observed pending))
    i (Nat.min iters (N.to_nat (N.min n 64) - i)).
Proof.
  revert i. induction iters as [|iters IH]; intros i; simpl; [reflexivity |].
  destruct ((N.of_nat i <? n) && (N.of_nat i <? 64)) eqn:Hlt; simpl.
  - bool_facts.
    replace (N.to_nat (N.min n 64) - i)%nat with (S (N.to_nat (N.min n 64) - S i)) by lia.
    simpl. unfold decision_at at 1. rewrite IH.
    destruct (exec_policy_rules m !! i) as [rule|]; [|reflexivity].
    destruct (exec_rule_body observed pending rule); reflexivity.
  - replace (N.to_nat (N.min n 64) - i)%nat with 0%nat; [reflexivity |].
    apply andb_false_iff in Hlt as [H|H]; bool_facts; lia.
Qed.

Lemma check_exec_policy_first (m : exec_maps) (pend : gmap N pending_exec_args)
    (t : task) (observed : list ascii) :
  check_exec_policy m pend t observed =
  match first_decision
          (decision_at (exec_policy_rules m) (exec_rule_body observed (pend !! current_pid t)))
          0 (N.to_nat (N.min (default 0 (exec_num_rules m)) 64)) with
  | Some v => v
  | None => exec_default m
  end.
Proof.
  unfold check_exec_policy.
  replace (match exec_num_rules m with Some n => n | None => 0 end)
    with (default 0 (exec_num_rules m)) by (destruct (exec_num_rules m); reflexivity).
  set (n := default 0 (exec_num_rules m)).
  destruct (n =? 0) eqn:Hz; bool_facts.
  - rewrite Hz. reflexivity.
  - rewrite exec_policy_loop_first.
    destruct (64 <? n) eqn:Hgt; bool_facts.
    + rewrite !N.min_r by lia. reflexivity.
    + rewrite (N.min_l n 64) by lia.
      replace (Nat.min 64 (N.to_nat n - 0)) with (N.to_nat n) by lia. reflexivity.
Qed.

Lemma check_exec_policy_skip (m : exec_maps) (pend : gmap N pending_exec_args)
    (t : task) (observed : list ascii) (i : nat) (r : exec_policy_rule) :
  exec_policy_rules m !! i = Some r ->
  exec_rule_body observed (pend !! current_pid t) r = None ->
  check_exec_policy (without_exec_rule i m) pend t observed =
  check_exec_policy m pend t observed.
Proof.
  intros Hi Hr. rewrite !check_exec_policy_first.
  unfold without_exec_rule, exec_default.
  cbn [exec_policy_rules exec_num_rules exec_default_policy].
  rewrite (first_decision_ext _
             (decision_at (exec_policy_rules m)
                (exec_rule_body observed (pend !! current_pid t))));
    [reflexivity |].
  intros j _. apply (decision_at_delete _ _ i r); assumption.
Qed.

(** *** The argument blacklist *)

Lemma arg_bytes_loop_true (iters j : nat) (len : N) (actual pattern : list ascii) :
  arg_bytes_loop iters j len actual pattern = true <->
  (forall k : nat, (j <= k < j + iters)%nat -> N.of_nat k < N.min len 16 ->
     char_at actual k = char_at pattern k).
Proof.
  revert j. induction iters as [|iters IH]; intros j; simpl.
  - split; [intros _ k Hk; lia | reflexivity].
  - destruct ((N.of_nat j <? len) && (N.of_nat j <? 16)) eqn:Hlt; simpl.
    + bool_facts.
      destruct (Ascii.eqb (char_at actual j) (char_at pattern j)) eqn:Heq; simpl; bool_facts.
      * rewrite IH. split; intros Hall k Hk Hb.
        -- destruct (decide (k = j)) as [->|Hne]; [assumption | apply Hall; [lia | assumption]].
        -- apply Hall; [lia | assumption].
      * split; [discriminate |]. intros Hall. exfalso. apply Heq, Hall; lia.
    + split; [| reflexivity]. intros _ k Hk Hb.
      apply andb_false_iff in Hlt as [Hc|Hc]; bool_facts; lia.
Qed.

Lemma arg_bytes_loop_equal (pe : pending_exec_args) (r : exec_policy_rule) (p a : nat) :
  arg_bytes_loop 16 0 (len_at (er_arg_lens r) p)
    (row_at (pe_detailed_args pe) a) (row_at (er_args r) p) = true <->
  arg_equal pe r p a.
Proof.
  rewrite arg_bytes_loop_true. unfold arg_equal.
  split; intros H k; [intros Hb; apply H; lia | intros _ Hb; apply H; exact Hb].
Qed.

Lemma arg_actual_loop_true (iters a : nat) (pe : pending_exec_args)
    (r : exec_policy_rule) (p : nat) :
  arg_actual_loop iters a pe r p = true <->
  (exists a' : nat, (a <= a' < a + iters)%nat /\
     N.of_nat a' < N.min (pe_argc pe) 4 /\ arg_equal pe r p a').
Proof.
  revert a. induction iters as [|iters IH]; intros a; cbn [arg_actual_loop].
  - split; [discriminate | intros (a' & Ha & _); lia].
  - destruct ((N.of_nat a <? pe_argc pe) && (N.of_nat a <? 4)) eqn:Hlt; cbn [negb].
    + bool_facts.
      destruct (arg_bytes_loop 16 0 (len_at (er_arg_lens r) p)
                  (row_at (pe_detailed_args pe) a) (row_at (er_args r) p)) eqn:Hb.
      * apply arg_bytes_loop_equal in Hb. split; [intros _ | reflexivity].
        exists a. split; [lia | split; [lia | exact Hb]].
      * rewrite IH. split; intros (a' & Ha & Hlim & Heq).
        -- exists a'. split; [lia | split; assumption].
        -- exists a'. split; [| split; assumption].
           destruct (decide (a' = a)) as [->|Hne]; [| lia].
           apply arg_bytes_loop_equal in Heq. congruence.
    + split; [discriminate |]. intros (a' & Ha & Hlim & _).
      apply andb_false_iff in Hlt as [Hc|Hc]; bool_facts; lia.
Qed.

Lemma arg_pattern_loop_true (iters p : nat) (pe : pending_exec_args)
    (r : exec_policy_rule) :
  arg_pattern_loop iters p pe r = true <->
  (exists p' a : nat, (p <= p' < p + iters)%nat /\
     N.of_nat p' < N.min (er_arg_count r) 3 /\
     (1 <= a)%nat /\ N.of_nat a < N.min (pe_argc pe) 4 /\ arg_equal pe r p' a).
Proof.
  revert p. induction iters as [|iters IH]; intros p; cbn [arg_pattern_loop].
  - split; [discriminate | intros (p' & a & Hp & _); lia].
  - destruct ((N.of_nat p <? er_arg_count r) && (N.of_nat p <? 3)) eqn:Hlt; cbn [negb].
    + bool_facts. destruct (arg_actual_loop 4 1 pe r p) eqn:Ha.
      * apply arg_actual_loop_true in Ha as (a & Ha & Hlim & Heq).
        split; [intros _ | reflexivity].
        exists p, a. repeat split; try assumption; lia.
      * rewrite IH. split; intros (p' & a & Hp & Hlim & Ha1 & Halim & Heq).
        -- exists p', a. repeat split; try assumption; lia.
        -- exists p', a. repeat split; try assumption; try lia.
           destruct (decide (p' = p)) as [->|Hne]; [| lia].
           assert (arg_actual_loop 4 1 pe r p = true); [| congruence].
           apply arg_actual_loop_true. exists a. repeat split; try assumption; lia.
    + split; [discriminate |]. intros (p' & a & Hp & Hlim & _).
      apply andb_false_iff in Hlt as [Hc|Hc]; bool_facts; lia.
Qed.

Lemma arg_pattern_loop_blacklisted (pe : pending_exec_args) (r : exec_policy_rule) :
  arg_pattern_loop 3 0 pe r = true <-> blacklisted pe r.
Proof.
  rewrite arg_pattern_loop_true. unfold blacklisted.
  split; intros (p & a & H).
  - exists p, a. tauto.
  - exists p, a. repeat split; try tauto; lia.
Qed.

Lemma exec_path_matches_bool (observed : list ascii) (r : exec_policy_rule) :
  exec_path_matches observed r <->
  (er_path_len r =? 0) || (64 <? er_path_len r) = false /\
  negb (simple_string_starts_with observed (er_path r) (er_path_len r) =? 0)%Z = true.
Proof.
  unfold exec_path_matches. rewrite simple_string_starts_with_bool.
  fold (prefix_equal observed (er_path r) (er_path_len r)).
  split; intros [H1 H2]; (split; [| exact H2]).
  - apply orb_false_iff. split; [apply N.eqb_neq | apply N.ltb_ge]; lia.
  - bool_facts. lia.
Qed.

Lemma blacklisted_argc (pe : pending_exec_args) (r : exec_policy_rule) :
  blacklisted pe r -> 1 < pe_argc pe /\ 0 < er_arg_count r.
Proof. intros (p & a & Hp & Ha & Hlim & _). lia. Qed.

Lemma exec_rule_body_Some (observed : list ascii)
    (pending : option pending_exec_args) (r : exec_policy_rule) (v : Z) :
  exec_rule_body observed pending r = Some v <-> exec_rule_decides observed pending r v.
Proof.
  unfold exec_rule_body, exec_rule_decides. rewrite exec_path_matches_bool.
  destruct ((er_path_len r =? 0) || (64 <? er_path_len r)) eqn:Hbad.
  { split; [discriminate | intros [[H _] _]; discriminate]. }
  destruct (negb (simple_string_starts_with observed (er_path r) (er_path_len r) =? 0)%Z)
    eqn:Hpre.
  2:{ split; [discriminate | intros [[_ H] _]; discriminate]. }
  destruct (er_arg_count r =? 0) eqn:Hcount; bool_facts.
  { split.
    - intros [= <-]. split; [split; reflexivity | left; split; [assumption | reflexivity]].
    - intros (_ & [[_ ->] | (Hpos & _)]); [reflexivity | lia]. }
  destruct pending as [pe|].
  2:{ split; [discriminate |].
      intros (_ & [[Hzero _] | (_ & _ & _ & pe & Hpe & _)]); [lia | discriminate]. }
  destruct ((1 <? pe_argc pe) && (0 <? er_arg_count r) && (er_action r =? 0)) eqn:Hguard.
  - bool_facts. destruct (arg_pattern_loop 3 0 pe r) eqn:Hloop.
    + apply arg_pattern_loop_blacklisted in Hloop. split.
      * intros [= <-]. split; [split; reflexivity |]. right.
        repeat split; try assumption. exists pe. split; [reflexivity | assumption].
      * intros (_ & [[Hzero _] | (_ & _ & -> & _)]); [lia | reflexivity].
    + split; [discriminate |].
      intros (_ & [[Hzero _] | (_ & _ & _ & pe' & [= <-] & Hbl)]); [lia |].
      apply arg_pattern_loop_blacklisted in Hbl. congruence.
  - split; [discriminate |].
    intros (_ & [[Hzero _] | (Hpos & Hact & _ & pe' & [= <-] & Hbl)]); [lia |].
    apply blacklisted_argc in Hbl as [Hargc _].
    apply andb_false_iff in Hguard as [Hguard | Hguard];
      [apply andb_false_iff in Hguard as [Hguard | Hguard] |]; bool_facts; lia.
Qed.

Lemma exec_rule_body_None (observed : list ascii)
    (pending : option pending_exec_args) (r : exec_policy_rule) :
  (forall v, ~ exec_rule_decides observed pending r v) ->
  exec_rule_body observed pending r = None.
Proof.
  intros H. destruct (exec_rule_body observed pending r) as [v|] eqn:Hb; [| reflexivity].
  apply exec_rule_body_Some in Hb. contradiction (H v).
Qed.

Lemma check_exec_policy_decided (m : exec_maps) (pend : gmap N pending_exec_args)
    (t : task) (observed : list ascii) (i : nat) (r : exec_policy_rule) (v : Z) :
  N.of_nat i < N.min (default 0 (exec_num_rules m)) 64 ->
  exec_policy_rules m !! i = Some r ->
  exec_reaches m observed (pend !! current_pid t) i ->
  exec_rule_decides observed (pend !! current_pid t) r v ->
  check_exec_policy m pend t observed = v.
Proof.
  intros Hi Hr Hreach Hdec. rewrite check_exec_policy_first.
  rewrite (first_decision_hit _ 0 _ i v); [reflexivity | lia | |].
  - unfold decision_at. rewrite Hr. apply exec_rule_body_Some, Hdec.
  - intros j Hj. unfold decision_at.
    destruct (exec_policy_rules m !! j) as [r'|] eqn:Hj'; [|reflexivity].
    apply exec_rule_body_None. intros v'. apply (Hreach j r' v'); [lia | assumption].
Qed.

(** C7. In the exec matcher, for a rule at an index below
    [min num_rules 64] whose path prefix matches and which the matcher
    reaches: (a) with [arg_count = 0] its action is returned (as the [int]
    the C function returns); (b) a deny rule with [arg_count > 0] returns 0
    (deny) as soon as one of its first [min arg_count 3] patterns agrees
    with one of the correlated arguments [argv[a]], [1 <= a < min argc 4]
    ([argv[0]] is skipped), over the first [min arg_lens[p] 16] bytes.
    (c) A rule with a non-zero action and [arg_count > 0] never decides:
    the verdict is the one of the table without it. *)
Theorem check_exec_policy_blacklist (m : exec_maps) (pend : gmap N pending_exec_args)
    (t : task) (observed : list ascii) (i : nat) (r : exec_policy_rule) :
  exec_policy_rules m !! i = Some r ->
  (N.of_nat i < N.min (default 0 (exec_num_rules m)) 64 ->
   exec_path_matches observed r ->
   exec_reaches m observed (pend !! current_pid t) i ->
   (er_arg_count r = 0 ->
    check_exec_policy m pend t observed = int_of_u32 (er_action r)) /\
   (0 < er_arg_count r -> er_action r = 0 ->
    forall pe, pend !! current_pid t = Some pe ->
    (exists p a : nat,
       N.of_nat p < N.min (er_arg_count r) 3 /\
       (1 <= a)%nat /\ N.of_nat a < N.min (pe_argc pe) 4 /\
       forall j : nat, N.of_nat j < N.min (len_at (er_arg_lens r) p) 16 ->
         char_at (row_at (pe_detailed_args pe) a) j = char_at (row_at (er_args r) p) j) ->
    check_exec_policy m pend t observed = 0%Z)) /\
  (0 < er_arg_count r -> er_action r <> 0 ->
   check_exec_policy (without_exec_rule i m) pend t observed =
   check_exec_policy m pend t observed).
Proof.
  intros Hr. split.
  - intros Hi Hpath Hreach. split.
    + intros Hcount. apply (check_exec_policy_decided m pend t observed i r); try assumption.
      split; [assumption | left; split; [assumption | reflexivity]].
    + intros Hcount Hdeny pe Hpe Hbl.
      apply (check_exec_policy_decided m pend t observed i r); try assumption.
      split; [assumption | right]. repeat split; try assumption.
      exists pe. split; [assumption | exact Hbl].
  - intros Hcount Hallow. apply (check_exec_policy_skip m pend t observed i r Hr).
    apply exec_rule_body_None. intros v (_ & [[Hzero _] | (_ & Hdeny & _)]); [lia | contradiction].
Qed.

(** C10. In the exec matcher a deny rule with [arg_count > 0] returns a
    value only when a correlated entry exists for the current PID with
    [argc > 1], and that value is 0 (deny). When the entry is missing or
    its [argc] is at most 1 the rule is skipped: the verdict is the one of
    the table without it, and when the matcher reaches the rule the
    verdict falls to what follows: it is the value of the first later rule
    (below [min num_rules 64]) that decides, and the default-policy slot,
    or 0 when that slot is absent, when no later rule decides. *)
Theorem check_exec_policy_needs_correlation (m : exec_maps)
    (pend : gmap N pending_exec_args) (t : task) (observed : list ascii)
    (i : nat) (r : exec_policy_rule) :
  exec_policy_rules m !! i = Some r ->
  0 < er_arg_count r -> er_action r = 0 ->
  (forall v, exec_rule_body observed (pend !! current_pid t) r = Some v ->
     v = 0%Z /\ exists pe, pend !! current_pid t = Some pe /\ 1 < pe_argc pe) /\
  ((pend !! current_pid t = None \/
    exists pe, pend !! current_pid t = Some pe /\ pe_argc pe <= 1) ->
   exec_rule_body observed (pend !! current_pid t) r = None /\
   check_exec_policy m pend t observed =
   check_exec_policy (without_exec_rule i m) pend t observed /\
   (exec_reaches m observed (pend !! current_pid t) i ->
    (forall (k : nat) (r' : exec_policy_rule) (v : Z),
       (i < k)%nat ->
       N.of_nat k < N.min (default 0 (exec_num_rules m)) 64 ->
       exec_policy_rules m !! k = Some r' ->
       exec_rule_decides observed (pend !! current_pid t) r' v ->
       (forall (j : nat) (r'' : exec_policy_rule) (v'' : Z),
          (i < j < k)%nat -> exec_policy_rules m !! j = Some r'' ->
          ~ exec_rule_decides observed (pend !! current_pid t) r'' v'') ->
       check_exec_policy m pend t observed = v) /\
    ((forall (j : nat) (r'' : exec_policy_rule) (v'' : Z),
        (i < j)%nat ->
        N.of_nat j < N.min (default 0 (exec_num_rules m)) 64 ->
        exec_policy_rules m !! j = Some r'' ->
        ~ exec_rule_decides observed (pend !! current_pid t) r'' v'') ->
     check_exec_policy m pend t observed =
     match exec_default_policy m with
     | Some d => int_of_u32 d
     | None => 0%Z
     end))).
Proof.
  intros Hr Hcount Hdeny.
  assert (Hneeds : forall v,
            exec_rule_body observed (pend !! current_pid t) r = Some v ->
            v = 0%Z /\ exists pe, pend !! current_pid t = Some pe /\ 1 < pe_argc pe).
  { intros v Hb. apply exec_rule_body_Some in Hb as (_ & [[Hzero _] | (_ & _ & -> & pe & Hpe & Hbl)]);
      [lia |].
    split; [reflexivity |]. exists pe. split; [assumption |].
    apply (blacklisted_argc pe r Hbl). }
  split; [exact Hneeds |].
  intros Hmissing.
  assert (Hnone : exec_rule_body observed (pend !! current_pid t) r = None).
  { destruct (exec_rule_body observed (pend !! current_pid t) r) as [v|] eqn:Hb; [| reflexivity].
    destruct (Hneeds v eq_refl) as (_ & pe & Hpe & Hargc).
    destruct Hmissing as [Hnone | (pe' & Hpe' & Hle)]; [congruence |].
    assert (pe' = pe) by congruence. subst pe'. lia. }
  split; [exact Hnone |].
  split; [symmetry; apply (check_exec_policy_skip m pend t observed i r Hr Hnone) |].
  intros Hreach.
  assert (Hskipped : forall v, ~ exec_rule_decides observed (pend !! current_pid t) r v).
  { intros v Hdec. apply exec_rule_body_Some in Hdec. congruence. }
  split.
  - intros k r' v Hik Hk Hr' Hdec Hbetween.
    apply (check_exec_policy_decided m pend t observed k r' v Hk Hr'); [| exact Hdec].
    intros j r'' v'' Hj Hr''.
    destruct (Nat.lt_trichotomy j i) as [Hlt | [-> | Hgt]].
    + apply (Hreach j r'' v'' Hlt Hr'').
    + assert (r'' = r) by congruence. subst r''. apply Hskipped.
    + apply (Hbetween j r'' v''); [lia | exact Hr''].
  - intros Hlater. rewrite check_exec_policy_first.
    rewrite first_decision_none; [reflexivity |].
    intros j Hj. unfold decision_at.
    destruct (exec_policy_rules m !! j) as [r''|] eqn:Hr''; [| reflexivity].
    apply exec_rule_body_None. intros v''.
    destruct (Nat.lt_trichotomy j i) as [Hlt | [-> | Hgt]].
    + apply (Hreach j r'' v'' Hlt Hr'').
    + assert (r'' = r) by congruence. subst r''. apply Hskipped.
    + apply (Hlater j r'' v''); [exact Hgt | lia | exact Hr''].
Qed.

Lemma check_exec_policy_blacklist_witness :
  check_exec_policy (exec_table {[ 0%nat := exec_rule 0 "/bin/" [] ]} 1 (Some 1))
    ∅ (sample_task "sh") (chars "/bin/ls") = int_of_u32 0 /\
  check_exec_policy (exec_table {[ 0%nat := exec_rule 0 "/bin/" ["--privileged"] ]} 1 (Some 1))
    {[ 100 := pending_args ["ls"; "--privileged"] ]} (sample_task "sh") (chars "/bin/ls")
  = 0%Z /\
  check_exec_policy
    (without_exec_rule 0 (exec_table {[ 0%nat := exec_rule 1 "/bin/" ["-l"] ]} 1 (Some 0)))
    {[ 100 := pending_args ["ls"; "-l"] ]} (sample_task "sh") (chars "/bin/ls") =
  check_exec_policy (exec_table {[ 0%nat := exec_rule 1 "/bin/" ["-l"] ]} 1 (Some 0))
    {[ 100 := pending_args ["ls"; "-l"] ]} (sample_task "sh") (chars "/bin/ls").
Proof.
  assert (Hpath : forall act pats, exec_path_matches (chars "/bin/ls") (exec_rule act "/bin/" pats)).
  { intros act pats. split; [cbn; lia |]. unfold prefix_equal. prefix_cases 5. }
  split; [| split].
  - destruct (check_exec_policy_blacklist
                (exec_table {[ 0%nat := exec_rule 0 "/bin/" [] ]} 1 (Some 1))
                ∅ (sample_task "sh") (chars "/bin/ls") 0%nat (exec_rule 0 "/bin/" []))
      as [Hreached _]; [reflexivity |].
    destruct Hreached as [Hany _];
      [reflexivity | apply Hpath | intros j r' v' Hj; lia |].
    apply Hany. reflexivity.
  - destruct (check_exec_policy_blacklist
                (exec_table {[ 0%nat := exec_rule 0 "/bin/" ["--privileged"] ]} 1 (Some 1))
                {[ 100 := pending_args ["ls"; "--privileged"] ]} (sample_task "sh")
                (chars "/bin/ls") 0%nat (exec_rule 0 "/bin/" ["--privileged"]))
      as [Hreached _]; [reflexivity |].
    destruct Hreached as [_ Hdeny];
      [reflexivity | apply Hpath | intros j r' v' Hj; lia |].
    apply (Hdeny eq_refl eq_refl (pending_args ["ls"; "--privileged"])); [reflexivity |].
    exists 0%nat, 1%nat. split; [reflexivity | split; [lia | split; [reflexivity |]]].
    prefix_cases 12.
  - destruct (check_exec_policy_blacklist
                (exec_table {[ 0%nat := exec_rule 1 "/bin/" ["-l"] ]} 1 (Some 0))
                {[ 100 := pending_args ["ls"; "-l"] ]} (sample_task "sh")
                (chars "/bin/ls") 0%nat (exec_rule 1 "/bin/" ["-l"]))
      as [_ Hinert]; [reflexivity |].
    apply Hinert; [reflexivity | discriminate].
Defined.

Lemma check_exec_policy_needs_correlation_witness :
  (exec_rule_body (chars "/bin/ls")
     ((∅ : gmap N pending_exec_args) !! current_pid (sample_task "sh"))
     (exec_rule 0 "/bin/" ["--privileged"]) = None /\
   check_exec_policy (exec_table {[ 0%nat := exec_rule 0 "/bin/" ["--privileged"] ]} 1 (Some 1))
     ∅ (sample_task "sh") (chars "/bin/ls") =
   check_exec_policy
     (without_exec_rule 0
        (exec_table {[ 0%nat := exec_rule 0 "/bin/" ["--privileged"] ]} 1 (Some 1)))
     ∅ (sample_task "sh") (chars "/bin/ls")) /\
  check_exec_policy (exec_table {[ 0%nat := exec_rule 0 "/bin/" ["--privileged"] ]} 1 (Some 1))
    ∅ (sample_task "sh") (chars "/bin/ls") = int_of_u32 1 /\
  check_exec_policy
    (exec_table {[ 0%nat := exec_rule 0 "/bin/" ["--privileged"];
                   1%nat := exec_rule 1 "/bin/" [] ]} 2 (Some 0))
    {[ 100 := pending_args ["ls"] ]} (sample_task "sh") (chars "/bin/ls") = int_of_u32 1.
Proof.
  assert (Hpath : forall act pats, exec_path_matches (chars "/bin/ls") (exec_rule act "/bin/" pats)).
  { intros act pats. split; [cbn; lia |]. unfold prefix_equal. prefix_cases 5. }
  destruct (check_exec_policy_needs_correlation
              (exec_table {[ 0%nat := exec_rule 0 "/bin/" ["--privileged"] ]} 1 (Some 1))
              ∅ (sample_task "sh") (chars "/bin/ls") 0%nat
              (exec_rule 0 "/bin/" ["--privileged"]))
    as [_ Hmissing]; [reflexivity | reflexivity | reflexivity |].
  destruct Hmissing as (Hbody & Hwithout & Hafter); [left; reflexivity |].
  split; [split; [exact Hbody | exact Hwithout] |]. split.
  - destruct Hafter as [_ Hdefault]; [intros j r' v' Hj; lia |].
    apply Hdefault. intros j r'' v'' Hj Hlim. cbn in Hlim. lia.
  - destruct (check_exec_policy_needs_correlation
                (exec_table {[ 0%nat := exec_rule 0 "/bin/" ["--privileged"];
                               1%nat := exec_rule 1 "/bin/" [] ]} 2 (Some 0))
                {[ 100 := pending_args ["ls"] ]} (sample_task "sh") (chars "/bin/ls") 0%nat
                (exec_rule 0 "/bin/" ["--privileged"]))
      as [_ Hshort]; [reflexivity | reflexivity | reflexivity |].
    destruct Hshort as (_ & _ & Hlater);
      [right; exists (pending_args ["ls"]); split; [reflexivity | cbn; lia] |].
    destruct Hlater as [Hnext _]; [intros j r' v' Hj; lia |].
    apply (Hnext 1%nat (exec_rule 1 "/bin/" [])); [lia | reflexivity | reflexivity | |].
    + split; [apply Hpath | left; split; reflexivity].
    + intros j r'' v'' Hj. lia.
Defined.

(** ** Rule lengths and the prefix test *)

Lemma exec_rule_body_bad_len (observed : list ascii)
    (pending : option pending_exec_args) (r : exec_policy_rule) :
  er_path_len r = 0 \/ 64 < er_path_len r -> exec_rule_body observed pending r = None.
Proof.
  intros H. apply exec_rule_body_None. intros v ((Hlen & _) & _). lia.
Qed.

(** C9. In the open and exec matchers a rule with [path_len = 0] or
    [path_len > 64] is ignored: the verdict is the one of the table in
    which its slot is absent. The prefix test of both matchers succeeds
    exactly when the first [min path_len 64] bytes of the observed path and
    of the rule's path are equal, byte for byte; for [1 <= path_len <= 64]
    a rule can decide only under that equality, and under it an open rule
    with operation OPEN and an exec rule with [arg_count = 0] return their
    action. *)
Theorem rule_path_len_and_byte_exact_prefix :
  (forall (m : open_maps) (observed : list ascii) (mode : N) (i : nat) (r : policy_rule),
     policy_rules m !! i = Some r ->
     path_len r = 0 \/ 64 < path_len r ->
     check_path_policy (without_open_rule i m) observed mode =
     check_path_policy m observed mode) /\
  (forall (m : exec_maps) (pend : gmap N pending_exec_args) (t : task)
          (observed : list ascii) (i : nat) (r : exec_policy_rule),
     exec_policy_rules m !! i = Some r ->
     er_path_len r = 0 \/ 64 < er_path_len r ->
     check_exec_policy (without_exec_rule i m) pend t observed =
     check_exec_policy m pend t observed) /\
  (forall (observed rule_path : list ascii) (len : N),
     simple_string_starts_with observed rule_path len <> 0%Z <->
     (forall j : nat, N.of_nat j < N.min len 64 ->
        char_at observed j = char_at rule_path j)) /\
  (forall (observed : list ascii) (mode : N) (r : policy_rule),
     1 <= path_len r <= 64 ->
     (path_rule_body observed mode r <> None ->
      forall j : nat, N.of_nat j < N.min (path_len r) 64 ->
        char_at observed j = char_at (path r) j) /\
     ((forall j : nat, N.of_nat j < N.min (path_len r) 64 ->
         char_at observed j = char_at (path r) j) ->
      operation r = OP_OPEN ->
      path_rule_body observed mode r = Some (int_of_u32 (action r)))) /\
  (forall (observed : list ascii) (pending : option pending_exec_args)
          (r : exec_policy_rule),
     1 <= er_path_len r <= 64 ->
     (exec_rule_body observed pending r <> None ->
      forall j : nat, N.of_nat j < N.min (er_path_len r) 64 ->
        char_at observed j = char_at (er_path r) j) /\
     ((forall j : nat, N.of_nat j < N.min (er_path_len r) 64 ->
         char_at observed j = char_at (er_path r) j) ->
      er_arg_count r = 0 ->
      exec_rule_body observed pending r = Some (int_of_u32 (er_action r)))).
Proof.
  split; [| split; [| split; [| split]]].
  - intros m observed mode i r Hr Hlen.
    apply (check_path_policy_skip m observed mode i r Hr).
    apply path_rule_body_bad_len, Hlen.
  - intros m pend t observed i r Hr Hlen.
    apply (check_exec_policy_skip m pend t observed i r Hr).
    apply exec_rule_body_bad_len, Hlen.
  - apply simple_string_starts_with_nonzero.
  - intros observed mode r Hlen. split.
    + intros Hsome.
      destruct (path_rule_body observed mode r) as [v|] eqn:Hb; [| contradiction].
      apply (path_rule_body_Some_prefix observed mode r v Hb).
    + intros Heq Hop. apply path_rule_body_hit.
      split; [assumption | split; [exact Heq | left; assumption]].
  - intros observed pending r Hlen. split.
    + intros Hsome.
      destruct (exec_rule_body observed pending r) as [v|] eqn:Hb; [| contradiction].
      apply exec_rule_body_Some in Hb as ((_ & Hpre) & _). exact Hpre.
    + intros Heq Hcount. apply exec_rule_body_Some.
      split; [split; [assumption | exact Heq] | left; split; [assumption | reflexivity]].
Qed.

Lemma rule_path_len_and_byte_exact_prefix_witness :
  check_path_policy
    (without_open_rule 0 (open_table {[ 0%nat := zero_length_rule ]} 1 (Some 1)))
    (chars "/etc/shadow") OP_OPEN_RO =
  check_path_policy (open_table {[ 0%nat := zero_length_rule ]} 1 (Some 1))
    (chars "/etc/shadow") OP_OPEN_RO /\
  path_rule_body (chars "/var/log/syslog") OP_OPEN_RO
    {| action := 1; operation := OP_OPEN; path_len := 9;
       path := chars "/var/log/"; is_directory := 1 |} = Some (int_of_u32 1) /\
  simple_string_starts_with (chars "/VAR/LOG/syslog") (chars "/var/log/") 9 = 0%Z.
Proof.
  destruct rule_path_len_and_byte_exact_prefix as (Hopen & _ & Hbytes & Hrule & _).
  split; [| split].
  - apply (Hopen _ _ _ 0%nat zero_length_rule); [reflexivity | left; reflexivity].
  - apply (Hrule (chars "/var/log/syslog") OP_OPEN_RO
             {| action := 1; operation := OP_OPEN; path_len := 9;
                path := chars "/var/log/"; is_directory := 1 |});
      [cbn; lia | prefix_cases 9 | reflexivity].
  - destruct (Z.eq_dec
                (simple_string_starts_with (chars "/VAR/LOG/syslog") (chars "/var/log/") 9) 0)
      as [Hz | Hnz]; [exact Hz |].
    pose proof (proj1 (Hbytes _ _ _) Hnz 1%nat eq_refl) as Heq. discriminate Heq.
Defined.

(** ** The connect matcher *)

Lemma u32_of_int_pos (n : Z) : (0 < n < 2 ^ 31)%Z -> u32_of_int n = Z.to_N n.
Proof.
  intros Hn. unfold u32_of_int. rewrite Z.mod_small by lia. reflexivity.
Qed.

Lemma connect_policy_loop_first (iters i : nat) (n : Z) (m : connect_maps)
    (dest_ip dest_port : N) :
  connect_policy_loop iters i n m dest_ip dest_port =
  first_decision (decision_at (connect_policy_rules m) (connect_rule_body dest_ip dest_port))
    i (Nat.min iters (N.to_nat (u32_of_int n) - i)).
Proof.
  revert i. induction iters as [|iters IH]; intros i; cbn [connect_policy_loop];
    [reflexivity |].
  destruct (u32_of_int n <=? N.of_nat i) eqn:Hge; bool_facts.
  - replace (N.to_nat (u32_of_int n) - i)%nat with 0%nat by lia. reflexivity.
  - replace (N.to_nat (u32_of_int n) - i)%nat
      with (S (N.to_nat (u32_of_int n) - S i)) by lia.
    cbn [Nat.min first_decision]. unfold decision_at at 1. rewrite IH.
    destruct (connect_policy_rules m !! i) as [rule|]; [|reflexivity].
    destruct (connect_rule_body dest_ip dest_port rule); reflexivity.
Qed.

Lemma check_connect_policy_first (m : connect_maps) (n : Z) (dest_ip dest_port : N) :
  connect_num_rules m = Some n -> (- 2 ^ 31 <= n < 2 ^ 31)%Z ->
  check_connect_policy m dest_ip dest_port =
  match first_decision
          (decision_at (connect_policy_rules m) (connect_rule_body dest_ip dest_port))
          0 (Z.to_nat (Z.min n 256)) with
  | Some v => v
  | None => connect_default m
  end.
Proof.
  intros Hn Hrange. unfold check_connect_policy. rewrite Hn.
  destruct (n <=? 0)%Z eqn:Hle; bool_facts.
  - replace (Z.to_nat (Z.min n 256)) with 0%nat by lia. reflexivity.
  - rewrite connect_policy_loop_first, u32_of_int_pos by lia.
    replace (Nat.min 256 (N.to_nat (Z.to_N n) - 0)) with (Z.to_nat (Z.min n 256)) by lia.
    reflexivity.
Qed.

Lemma connect_rule_body_match (dest_ip dest_port : N) (r : connect_policy_rule) :
  connect_rule_matches dest_ip dest_port r ->
  connect_rule_body dest_ip dest_port r = Some (int_of_u32 (cr_action r)).
Proof.
  intros [Hip Hport]. unfold connect_rule_body.
  destruct (negb (cr_dest_ip r =? 0) && negb (cr_dest_ip r =? dest_ip)) eqn:Eip.
  { bool_facts. lia. }
  destruct (negb (cr_dest_port r =? 0) && negb (cr_dest_port r =? dest_port)) eqn:Eport.
  { bool_facts. lia. }
  reflexivity.
Qed.

Lemma connect_rule_body_skip (dest_ip dest_port : N) (r : connect_policy_rule) :
  ~ connect_rule_matches dest_ip dest_port r ->
  connect_rule_body dest_ip dest_port r = None.
Proof.
  intros Hskip. unfold connect_rule_body.
  destruct (negb (cr_dest_ip r =? 0) && negb (cr_dest_ip r =? dest_ip)) eqn:Eip;
    [reflexivity |].
  destruct (negb (cr_dest_port r =? 0) && negb (cr_dest_port r =? dest_port)) eqn:Eport;
    [reflexivity |].
  exfalso. apply Hskip. split.
  - apply andb_false_iff in Eip as [E|E]; bool_facts; [left | right]; assumption.
  - apply andb_false_iff in Eport as [E|E]; bool_facts; [left | right]; assumption.
Qed.

(** Without a [connect_num_rules] slot the matcher returns 0 and does not
    consult the default policy. *)
Lemma check_connect_policy_without_num_rules (m : connect_maps) (dest_ip dest_port : N) :
  connect_num_rules m = None -> check_connect_policy m dest_ip dest_port = 0%Z.
Proof. intros H. unfold check_connect_policy. rewrite H. reflexivity. Qed.

(** C8. In the connect matcher, with [num_rules] the value of the
    [connect_num_rules] slot, the rules are inspected in index order over
    [0, min num_rules 256): a rule is skipped when its [dest_ip] is
    non-zero and differs from the observed address, or its [dest_port] is
    non-zero and differs from the observed port; the first rule that is
    not skipped returns its action (as the [int] the C function returns).
    A rule with [dest_ip = 0] and [dest_port = 0] is never skipped, whatever
    the endpoint. When every rule is skipped the verdict is the
    [connect_default_policy] slot, or 0 (deny) when that slot is absent. *)
Theorem check_connect_policy_first_match (m : connect_maps) (n : Z)
    (dest_ip dest_port : N) :
  connect_num_rules m = Some n -> (- 2 ^ 31 <= n < 2 ^ 31)%Z ->
  (forall (i : nat) (r : connect_policy_rule),
     (Z.of_nat i < Z.min n 256)%Z ->
     connect_policy_rules m !! i = Some r ->
     (forall (j : nat) (r' : connect_policy_rule),
        (j < i)%nat -> connect_policy_rules m !! j = Some r' ->
        (cr_dest_ip r' <> 0 /\ cr_dest_ip r' <> dest_ip) \/
        (cr_dest_port r' <> 0 /\ cr_dest_port r' <> dest_port)) ->
     ((cr_dest_ip r <> 0 /\ cr_dest_ip r <> dest_ip) \/
      (cr_dest_port r <> 0 /\ cr_dest_port r <> dest_port) ->
      connect_rule_body dest_ip dest_port r = None) /\
     (~ ((cr_dest_ip r <> 0 /\ cr_dest_ip r <> dest_ip) \/
         (cr_dest_port r <> 0 /\ cr_dest_port r <> dest_port)) ->
      check_connect_policy m dest_ip dest_port = int_of_u32 (cr_action r)) /\
     (cr_dest_ip r = 0 -> cr_dest_port r = 0 ->
      check_connect_policy m dest_ip dest_port = int_of_u32 (cr_action r))) /\
  ((forall (j : nat) (r' : connect_policy_rule),
      (Z.of_nat j < Z.min n 256)%Z -> connect_policy_rules m !! j = Some r' ->
      (cr_dest_ip r' <> 0 /\ cr_dest_ip r' <> dest_ip) \/
      (cr_dest_port r' <> 0 /\ cr_dest_port r' <> dest_port)) ->
   check_connect_policy m dest_ip dest_port =
   match connect_default_policy m with
   | Some d => int_of_u32 d
   | None => 0%Z
   end).
Proof.
  intros Hn Hrange.
  assert (Hskipped : forall r' : connect_policy_rule,
            (cr_dest_ip r' <> 0 /\ cr_dest_ip r' <> dest_ip) \/
            (cr_dest_port r' <> 0 /\ cr_dest_port r' <> dest_port) ->
            connect_rule_body dest_ip dest_port r' = None).
  { intros r' Hs. apply connect_rule_body_skip. intros [Hip Hport].
    destruct Hs as [[? ?] | [? ?]]; [destruct Hip | destruct Hport]; contradiction. }
  assert (Hfirst : forall (i : nat) (r : connect_policy_rule),
            (Z.of_nat i < Z.min n 256)%Z ->
            connect_policy_rules m !! i = Some r ->
            (forall (j : nat) (r' : connect_policy_rule),
               (j < i)%nat -> connect_policy_rules m !! j = Some r' ->
               (cr_dest_ip r' <> 0 /\ cr_dest_ip r' <> dest_ip) \/
               (cr_dest_port r' <> 0 /\ cr_dest_port r' <> dest_port)) ->
            connect_rule_matches dest_ip dest_port r ->
            check_connect_policy m dest_ip dest_port = int_of_u32 (cr_action r)).
  { intros i r Hi Hr Hbefore Hmatch.
    rewrite (check_connect_policy_first m n) by assumption.
    rewrite (first_decision_hit _ 0 _ i (int_of_u32 (cr_action r))); [reflexivity | lia | |].
    - unfold decision_at. rewrite Hr. apply connect_rule_body_match, Hmatch.
    - intros j Hj. unfold decision_at.
      destruct (connect_policy_rules m !! j) as [r'|] eqn:Hj'; [|reflexivity].
      apply Hskipped, (Hbefore j r'); [lia | assumption]. }
  split.
  - intros i r Hi Hr Hbefore. split; [apply Hskipped | split].
    + intros Hnot. apply (Hfirst i r); try assumption.
      split.
      * destruct (N.eq_dec (cr_dest_ip r) 0) as [Hz|Hz]; [left; exact Hz | right].
        destruct (N.eq_dec (cr_dest_ip r) dest_ip) as [He|He]; [exact He |].
        exfalso. apply Hnot. left. split; assumption.
      * destruct (N.eq_dec (cr_dest_port r) 0) as [Hz|Hz]; [left; exact Hz | right].
        destruct (N.eq_dec (cr_dest_port r) dest_port) as [He|He]; [exact He |].
        exfalso. apply Hnot. right. split; assumption.
    + intros Hip Hport. apply (Hfirst i r); try assumption.
      split; left; assumption.
  - intros Hnone. rewrite (check_connect_policy_first m n) by assumption.
    rewrite first_decision_none; [reflexivity |].
    intros j Hj. unfold decision_at.
    destruct (connect_policy_rules m !! j) as [r'|] eqn:Hj'; [|reflexivity].
    apply Hskipped, (Hnone j r'); [lia | assumption].
Qed.

Lemma check_connect_policy_first_match_witness :
  check_connect_policy
    (connect_table {[ 42 := 1 ]} {[ 0%nat := connect_rule 1 0 443 ]} 1 (Some 0))
    16909060 443 = int_of_u32 1 /\
  check_connect_policy
    (connect_table {[ 42 := 1 ]} {[ 0%nat := connect_rule 1 0 443 ]} 1 (Some 0))
    16909060 80 = int_of_u32 0 /\
  check_connect_policy
    (connect_table {[ 42 := 1 ]} {[ 0%nat := connect_rule 0 0 0 ]} 1 (Some 1))
    16909060 80 = int_of_u32 0.
Proof.
  split; [| split].
  - destruct (check_connect_policy_first_match
                (connect_table {[ 42 := 1 ]} {[ 0%nat := connect_rule 1 0 443 ]} 1 (Some 0))
                1 16909060 443) as [Hfirst _]; [reflexivity | lia |].
    destruct (Hfirst 0%nat (connect_rule 1 0 443)) as (_ & Hreturn & _);
      [lia | reflexivity | intros j r' Hj; lia |].
    apply Hreturn. intros [[Hip _] | [_ Hport]]; [apply Hip | apply Hport]; reflexivity.
  - destruct (check_connect_policy_first_match
                (connect_table {[ 42 := 1 ]} {[ 0%nat := connect_rule 1 0 443 ]} 1 (Some 0))
                1 16909060 80) as [_ Hnone]; [reflexivity | lia |].
    apply Hnone. intros j r' Hj Hr'.
    destruct j as [|j]; [| lia].
    vm_compute in Hr'. injection Hr' as <-. right. split; discriminate.
  - destruct (check_connect_policy_first_match
                (connect_table {[ 42 := 1 ]} {[ 0%nat := connect_rule 0 0 0 ]} 1 (Some 1))
                1 16909060 80) as [Hfirst _]; [reflexivity | lia |].
    destruct (Hfirst 0%nat (connect_rule 0 0 0)) as (_ & _ & Hany);
      [lia | reflexivity | intros j r' Hj; lia |].
    apply Hany; reflexivity.
Defined.

(** ** The namespace-file bypass of the file_open program *)

Lemma is_digit_char_true (c : ascii) : ascii_digit c -> is_digit_char c = true.
Proof.
  intros [Hlo Hhi]. unfold is_digit_char.
  apply andb_true_iff. split; apply N.leb_le; assumption.
Qed.

Lemma char_at_app_r (l1 l2 : list ascii) (k : nat) :
  char_at (l1 ++ l2) (List.length l1 + k) = char_at l2 k.
Proof.
  unfold char_at. rewrite lookup_app_r by lia.
  replace (List.length l1 + k - List.length l1)%nat with k by lia. reflexivity.
Qed.

Lemma char_at_app_l (l1 l2 : list ascii) (k : nat) :
  (k < List.length l1)%nat -> char_at (l1 ++ l2) k = char_at l1 k.
Proof. intros Hk. unfold char_at. rewrite lookup_app_l by assumption. reflexivity. Qed.

Lemma nsfs_digit_loop_accepts (path_ : list ascii) (digit_pos : nat)
    (digits : list ascii) :
  forall (iters i : nat) (found_digit : bool),
    (forall k, (k < List.length digits)%nat ->
       ascii_digit (char_at path_ (digit_pos + (i + k)))) ->
    char_at path_ (digit_pos + (i + List.length digits)) = "]"%char ->
    found_digit = true \/ digits <> [] ->
    (List.length digits < iters)%nat ->
    (digit_pos + (i + List.length digits) < MAX_PATH_LEN)%nat ->
    nsfs_digit_loop iters i digit_pos found_digit path_ = true.
Proof.
  induction digits as [|d ds IH]; intros iters i found_digit Hdigits Hclose Hfound Hiters Hlen;
    (destruct iters as [|iters]; [simpl in Hiters; lia |]); cbn [nsfs_digit_loop].
  - cbn [List.length] in *. rewrite Nat.add_0_r in Hclose, Hlen.
    destruct (MAX_PATH_LEN <=? digit_pos + i)%nat eqn:Hmax; [bool_facts; lia |].
    rewrite Hclose. destruct Hfound as [-> | Hne]; [reflexivity | contradiction].
  - cbn [List.length] in *.
    destruct (MAX_PATH_LEN <=? digit_pos + i)%nat eqn:Hmax; [bool_facts; lia |].
    rewrite is_digit_char_true.
    + apply IH.
      * intros k Hk. replace (S i + k)%nat with (i + S k)%nat by lia. apply Hdigits. lia.
      * replace (S i + List.length ds)%nat with (i + S (List.length ds))%nat by lia.
        exact Hclose.
      * left. reflexivity.
      * lia.
      * lia.
    + replace (digit_pos + i)%nat with (digit_pos + (i + 0))%nat by lia. apply Hdigits. lia.
Qed.

Lemma nsfs_loop_found (path_ : list ascii) (k : nat) (prefix : list ascii) (prefix_len : nat) :
  nsfs_prefix k = Some (prefix, prefix_len) ->
  nsfs_prefix_loop 8 0 prefix_len path_ prefix = true ->
  nsfs_digit_loop 16 0 prefix_len false path_ = true ->
  forall iters prefix_idx : nat,
    (prefix_idx <= k < prefix_idx + iters)%nat ->
    nsfs_loop iters prefix_idx path_ = true.
Proof.
  intros Hk Hprefix Hdigits.
  induction iters as [|iters IH]; intros prefix_idx Hrange; [lia |].
  cbn [nsfs_loop]. destruct (decide (prefix_idx = k)) as [->|Hne].
  - rewrite Hk, Hprefix, Hdigits. reflexivity.
  - destruct (nsfs_prefix prefix_idx) as [[prefix' prefix_len']|]; [| apply IH; lia].
    destruct (nsfs_prefix_loop 8 0 prefix_len' path_ prefix'
              && nsfs_digit_loop 16 0 prefix_len' false path_); [reflexivity | apply IH; lia].
Qed.

Lemma is_nsfs_path_pattern (prefix : string) (digits rest : list ascii) :
  In prefix nsfs_prefixes ->
  (1 <= List.length digits <= 15)%nat ->
  Forall ascii_digit digits ->
  is_nsfs_path (chars prefix ++ digits ++ "]"%char :: rest) = true.
Proof.
  intros Hin Hlen Hdigits.
  assert (Hscan : forall prefix_len : nat,
            prefix_len = List.length (chars prefix) -> (prefix_len <= 8)%nat ->
            nsfs_digit_loop 16 0 prefix_len false
              (chars prefix ++ digits ++ "]"%char :: rest) = true).
  { intros prefix_len -> Hshort.
    apply (nsfs_digit_loop_accepts _ _ digits).
    - intros k Hk. cbn [Nat.add]. rewrite char_at_app_r, char_at_app_l by assumption.
      unfold char_at. destruct (digits !! k) as [c|] eqn:Hc.
      + apply (proj1 (Forall_lookup _ _) Hdigits k c Hc).
      + apply lookup_ge_None in Hc. lia.
    - cbn [Nat.add]. rewrite char_at_app_r.
      replace (List.length digits) with (List.length digits + 0)%nat by lia.
      rewrite char_at_app_r. reflexivity.
    - right. destruct digits; [simpl in Hlen; lia | discriminate].
    - lia.
    - unfold MAX_PATH_LEN. lia. }
  unfold is_nsfs_path, nsfs_prefixes in *.
  assert (Hcase : forall (k : nat) (p : list ascii) (prefix_len : nat),
            nsfs_prefix k = Some (p, prefix_len) -> (k < 8)%nat ->
            p = chars prefix -> prefix_len = List.length p -> (prefix_len <= 8)%nat ->
            nsfs_prefix_loop 8 0 prefix_len
              (chars prefix ++ digits ++ "]"%char :: rest) p = true ->
            nsfs_loop 8 0 (chars prefix ++ digits ++ "]"%char :: rest) = true).
  { intros k p prefix_len Hk Hk8 -> -> Hshort Hprefix.
    apply (nsfs_loop_found _ k _ _ Hk Hprefix); [| lia].
    apply Hscan; [reflexivity | assumption]. }
  destruct Hin as [<- | Hin];
    [apply (Hcase 0%nat _ _ eq_refl); [lia | reflexivity | reflexivity | cbn; lia | reflexivity] |].
  destruct Hin as [<- | Hin];
    [apply (Hcase 1%nat _ _ eq_refl); [lia | reflexivity | reflexivity | cbn; lia | reflexivity] |].
  destruct Hin as [<- | Hin];
    [apply (Hcase 2%nat _ _ eq_refl); [lia | reflexivity | reflexivity | cbn; lia | reflexivity] |].
  destruct Hin as [<- | Hin];
    [apply (Hcase 3%nat _ _ eq_refl); [lia | reflexivity | reflexivity | cbn; lia | reflexivity] |].
  destruct Hin as [<- | Hin];
    [apply (Hcase 4%nat _ _ eq_refl); [lia | reflexivity | reflexivity | cbn; lia | reflexivity] |].
  destruct Hin as [<- | Hin];
    [apply (Hcase 5%nat _ _ eq_refl); [lia | reflexivity | reflexivity | cbn; lia | reflexivity] |].
  destruct Hin as [<- | Hin];
    [apply (Hcase 6%nat _ _ eq_refl); [lia | reflexivity | reflexivity | cbn; lia | reflexivity] |].
  destruct Hin as [<- | Hin];
    [apply (Hcase 7%nat _ _ eq_refl); [lia | reflexivity | reflexivity | cbn; lia | reflexivity] |].
  destruct Hin.
Qed.

(** C4 (amended). In the file_open program running in a monitored cgroup,
    if the resolved path begins with one of the prefixes [mnt:[], [net:[],
    [ipc:[], [pid:[], [uts:[], [user:[], [cgroup:[], [time:[] followed by
    at least one and at most fifteen ASCII digits and then a closing [']'],
    the probe returns 0 (allow) and emits no event, whatever the rules and
    the default policy are. *)
Theorem lsm_open_nsfs_bypass (m : open_maps) (t : task) (f : file) (reserve_ok : bool)
    (prefix : string) (digits rest : list ascii) :
  is_target_cgroup m t = true ->
  In prefix nsfs_prefixes ->
  (1 <= List.length digits <= 15)%nat ->
  Forall ascii_digit digits ->
  open_resolved_path f = chars prefix ++ digits ++ "]"%char :: rest ->
  lsm_open m t f reserve_ok = ProbeResult 0 None.
Proof.
  intros Hgate Hin Hlen Hdigits Hpath. unfold lsm_open.
  rewrite Hgate, Hpath, (is_nsfs_path_pattern prefix digits rest Hin Hlen Hdigits).
  reflexivity.
Qed.

Lemma ascii_digits_literal (s : string) :
  forallb is_digit_char (chars s) = true -> Forall ascii_digit (chars s).
Proof.
  intros H. apply Forall_forall. intros c Hc.
  apply list_elem_of_In in Hc.
  apply (proj1 (forallb_forall _ _) H) in Hc. unfold is_digit_char in Hc.
  apply andb_true_iff in Hc as [Hlo Hhi].
  split; apply N.leb_le; assumption.
Qed.

Lemma lsm_open_nsfs_bypass_witness :
  lsm_open (open_table ∅ 0 (Some 0)) (sample_task "cat")
    (sample_file "net:[4026532621]" 1) true = ProbeResult 0 None.
Proof.
  apply (lsm_open_nsfs_bypass _ _ _ _ "net:[" (chars "4026532621") []).
  - reflexivity.
  - right. left. reflexivity.
  - cbn. lia.
  - apply ascii_digits_literal. reflexivity.
  - reflexivity.
Defined.

(** C4 as stated fails: sixteen digits between the brackets are more than
    the sixteen characters the probe scans, so the path is matched against
    the policy and logged like any other. *)
Lemma lsm_open_nsfs_sixteen_digits_counterexample :
  is_target_cgroup (open_table ∅ 0 (Some 0)) (sample_task "cat") = true /\
  open_resolved_path (sample_file "net:[1234567890123456]" 1) =
    chars "net:[" ++ chars "1234567890123456" ++ "]"%char :: [] /\
  Forall ascii_digit (chars "1234567890123456") /\
  retval (lsm_open (open_table ∅ 0 (Some 0)) (sample_task "cat")
            (sample_file "net:[1234567890123456]" 1) true) = (-13)%Z /\
  is_Some (emitted (lsm_open (open_table ∅ 0 (Some 0)) (sample_task "cat")
                      (sample_file "net:[1234567890123456]" 1) true)).
Proof.
  split; [reflexivity | split; [reflexivity | split]].
  - apply ascii_digits_literal. reflexivity.
  - split; [reflexivity |]. vm_compute. eexists. reflexivity.
Qed.

(** ** The package-manager override of the file_open program *)

Lemma comm_loop_true (expected : nat -> ascii) (comm : list ascii) (stop : nat) :
  forall iters i : nat,
    (forall k, (i <= k < stop)%nat -> char_at comm k = expected k) ->
    comm_loop iters i stop expected comm = true.
Proof.
  induction iters as [|iters IH]; intros i H; cbn [comm_loop]; [reflexivity |].
  destruct (stop <=? i)%nat eqn:Hstop; [reflexivity |]. bool_facts.
  rewrite (H i) by lia. rewrite (proj2 (Ascii.eqb_eq _ _) eq_refl). cbn [negb].
  apply IH. intros k Hk. apply H. lia.
Qed.

Lemma char_at_take (n k : nat) (b : list ascii) :
  (k < n)%nat -> char_at (take n b) k = char_at b k.
Proof. intros Hk. unfold char_at. rewrite lookup_take_lt by assumption. reflexivity. Qed.

Lemma char_at_prefix (l b : list ascii) (k : nat) :
  l `prefix_of` b -> (k < List.length l)%nat -> char_at b k = char_at l k.
Proof. intros [rest ->] Hk. apply char_at_app_l, Hk. Qed.

(** A buffer whose C string is [l] carries the bytes of [l] and then a NUL
    (or ends there). *)
Lemma cstr_char_at (l b : list ascii) :
  cstr b = l ->
  (forall k, (k < List.length l)%nat -> char_at b k = char_at l k) /\
  char_at b (List.length l) = NUL.
Proof.
  revert b. induction l as [|c l IH]; intros b Hb.
  - split; [intros k Hk; simpl in Hk; lia |].
    destruct b as [|c0 b]; [reflexivity |]. simpl in Hb.
    destruct (Ascii.eqb c0 NUL) eqn:Hc0; [| discriminate].
    bool_facts. subst c0. reflexivity.
  - destruct b as [|c0 b]; [discriminate |]. simpl in Hb.
    destruct (Ascii.eqb c0 NUL) eqn:Hc0; [discriminate |].
    injection Hb as -> Hb. destruct (IH b Hb) as [Hchars Hnul]. split.
    + intros [|k] Hk; [reflexivity |]. apply (Hchars k). simpl in Hk. lia.
    + exact Hnul.
Qed.

Lemma package_manager_comm_override (comm : list ascii) :
  package_manager_comm comm ->
  (comm_loop 8 0 7 apt_get_expected (take 16 comm)
     && Ascii.eqb (char_at (take 16 comm) 7) NUL)
  || comm_loop 5 0 4 dpkg_expected (take 16 comm)
  || comm_loop 7 0 6 update_expected (take 16 comm) = true.
Proof.
  intros [Hapt | [Hdpkg | Hupdate]].
  - destruct (cstr_char_at _ _ Hapt) as [Hchars Hnul].
    assert (comm_loop 8 0 7 apt_get_expected (take 16 comm) = true) as ->.
    { apply comm_loop_true. intros k Hk. rewrite char_at_take by lia.
      rewrite Hchars by (cbn; lia).
      do 7 (destruct k as [|k]; [reflexivity |]). lia. }
    rewrite char_at_take by lia. change 7%nat with (List.length (chars "apt-get")).
    rewrite Hnul. reflexivity.
  - assert (comm_loop 5 0 4 dpkg_expected (take 16 comm) = true) as ->.
    { apply comm_loop_true. intros k Hk. rewrite char_at_take by lia.
      rewrite (char_at_prefix _ _ k Hdpkg) by (cbn; lia).
      do 4 (destruct k as [|k]; [reflexivity |]). lia. }
    rewrite orb_true_r. reflexivity.
  - assert (comm_loop 7 0 6 update_expected (take 16 comm) = true) as ->.
    { apply comm_loop_true. intros k Hk. rewrite char_at_take by lia.
      rewrite (char_at_prefix _ _ k Hupdate) by (cbn; lia).
      do 6 (destruct k as [|k]; [reflexivity |]). lia. }
    apply orb_true_r.
Qed.

(** C3 (amended). In the file_open program running in a monitored cgroup,
    when the resolved path is not a namespace-file path and the ring-buffer
    reservation succeeds, whenever the current task's comm equals
    ["apt-get"] exactly, or begins with ["dpkg"], or begins with
    ["update"], the value returned to the kernel is 0 (allow) whatever the
    rules and the default policy are, and an event is emitted with result
    0. *)
Theorem lsm_open_package_manager_override (m : open_maps) (t : task) (f : file) :
  is_target_cgroup m t = true ->
  is_nsfs_path (open_resolved_path f) = false ->
  package_manager_comm (current_comm t) ->
  retval (lsm_open m t f true) = 0%Z /\
  exists e : open_event,
    emitted (lsm_open m t f true) = Some e /\ oe_result e = 0%Z.
Proof.
  intros Hgate Hnsfs Hcomm. unfold lsm_open.
  rewrite Hgate, Hnsfs. cbn [negb].
  rewrite (package_manager_comm_override _ Hcomm). cbn [retval emitted].
  split; [reflexivity |]. eexists. split; reflexivity.
Qed.

Lemma lsm_open_package_manager_override_witness :
  retval (lsm_open (open_table ∅ 0 (Some 0)) (sample_task "apt-get")
            (sample_file "/anything" 3) true) = 0%Z /\
  exists e : open_event,
    emitted (lsm_open (open_table ∅ 0 (Some 0)) (sample_task "apt-get")
               (sample_file "/anything" 3) true) = Some e /\ oe_result e = 0%Z.
Proof.
  apply lsm_open_package_manager_override.
  - reflexivity.
  - reflexivity.
  - left. reflexivity.
Defined.

(** C3 as stated fails in two ways: with a namespace-file path the probe
    returns before anything is logged, and when the reservation fails the
    probe returns before the comm is looked at, so nothing is logged and
    the verdict is the matcher's. *)
Lemma lsm_open_package_manager_counterexample :
  package_manager_comm (current_comm (sample_task "apt-get")) /\
  is_target_cgroup (open_table ∅ 0 (Some 0)) (sample_task "apt-get") = true /\
  emitted (lsm_open (open_table ∅ 0 (Some 0)) (sample_task "apt-get")
             (sample_file "net:[4026532621]" 3) true) = None /\
  lsm_open (open_table ∅ 0 (Some 0)) (sample_task "apt-get")
    (sample_file "/anything" 3) false = ProbeResult (-13) None.
Proof.
  split; [left; reflexivity |]. repeat split; reflexivity.
Qed.

(** ** The exec correlation channel *)

Lemma bpf_map_update_elem_stored {V} (max_entries : nat) (m : gmap N V) (k : N) (v : V) :
  is_Some (m !! k) \/ (size m < max_entries)%nat ->
  bpf_map_update_elem max_entries m k v !! k = Some v.
Proof.
  intros Hroom. unfold bpf_map_update_elem.
  destruct (m !! k) as [old|] eqn:Hk; [apply lookup_insert_eq |].
  destruct Hroom as [[old Hold] | Hsize]; [discriminate |].
  destruct (size m <? max_entries)%nat eqn:Hlt; [apply lookup_insert_eq |].
  bool_facts. lia.
Qed.

(** In a monitored cgroup the tracepoint stores its record whenever the
    PID already has an entry or the map has a free slot. *)
Lemma trace_sys_enter_execve_stores (m : exec_maps) (pend : gmap N pending_exec_args)
    (t : task) (ctx : sys_enter_execve_args) :
  is_exec_target_cgroup m t = true ->
  is_Some (pend !! current_pid t) \/ (size pend < 1024)%nat ->
  (trace_sys_enter_execve m pend t ctx).2 !! current_pid t = Some (pending_of_ctx t ctx).
Proof.
  intros Hgate Hroom. unfold trace_sys_enter_execve. rewrite Hgate. cbn [negb snd].
  apply bpf_map_update_elem_stored, Hroom.
Qed.

(** C5 (amended). If the execve tracepoint fires for a PID and stores its
    record, and the exec LSM hook then fires for the same PID in a
    monitored cgroup on the map the tracepoint left, and the ring-buffer
    reservation succeeds, then the hook emits an event that carries the
    record's [argc] and [detailed_args], and the map it leaves has no entry
    for the PID. *)
Theorem lsm_exec_consumes_pending (m m' : exec_maps) (pend : gmap N pending_exec_args)
    (t t' : task) (ctx : sys_enter_execve_args) (bprm : linux_binprm) :
  current_pid t' = current_pid t ->
  (trace_sys_enter_execve m pend t ctx).2 !! current_pid t = Some (pending_of_ctx t ctx) ->
  is_exec_target_cgroup m' t' = true ->
  (exists e : exec_event,
     emitted (lsm_exec m' (trace_sys_enter_execve m pend t ctx).2 t' bprm true).1 = Some e /\
     ee_argc e = int_of_u32 (pe_argc (pending_of_ctx t ctx)) /\
     ee_detailed_args e = pe_detailed_args (pending_of_ctx t ctx)) /\
  (lsm_exec m' (trace_sys_enter_execve m pend t ctx).2 t' bprm true).2 !! current_pid t' = None.
Proof.
  intros Hpid Hstored Hgate.
  set (pend' := (trace_sys_enter_execve m pend t ctx).2) in *.
  unfold lsm_exec. rewrite Hgate. cbn [negb]. rewrite Hpid, Hstored. cbn [fst snd emitted].
  split.
  - eexists. split; [reflexivity |]. split; reflexivity.
  - apply lookup_delete_eq.
Qed.

Lemma lsm_exec_consumes_pending_witness :
  (exists e : exec_event,
     emitted (lsm_exec (exec_table ∅ 0 (Some 1))
                (trace_sys_enter_execve (exec_table ∅ 0 (Some 1)) ∅
                   (sample_task "sh") sample_ctx).2
                (sample_task "sh") sample_bprm true).1 = Some e /\
     ee_argc e = int_of_u32 (pe_argc (pending_of_ctx (sample_task "sh") sample_ctx)) /\
     ee_detailed_args e = pe_detailed_args (pending_of_ctx (sample_task "sh") sample_ctx)) /\
  (lsm_exec (exec_table ∅ 0 (Some 1))
     (trace_sys_enter_execve (exec_table ∅ 0 (Some 1)) ∅ (sample_task "sh") sample_ctx).2
     (sample_task "sh") sample_bprm true).2 !! current_pid (sample_task "sh") = None.
Proof.
  apply lsm_exec_consumes_pending; reflexivity.
Defined.

(** C5 as stated fails: when the reservation fails the hook returns before
    it looks the entry up, so no event carries the arguments and the entry
    the tracepoint stored is still in the map afterwards. *)
Lemma lsm_exec_keeps_pending_counterexample :
  (trace_sys_enter_execve (exec_table ∅ 0 (Some 1)) ∅ (sample_task "sh") sample_ctx).2
    !! current_pid (sample_task "sh") = Some (pending_of_ctx (sample_task "sh") sample_ctx) /\
  is_exec_target_cgroup (exec_table ∅ 0 (Some 1)) (sample_task "sh") = true /\
  emitted (lsm_exec (exec_table ∅ 0 (Some 1))
             (trace_sys_enter_execve (exec_table ∅ 0 (Some 1)) ∅
                (sample_task "sh") sample_ctx).2
             (sample_task "sh") sample_bprm false).1 = None /\
  (lsm_exec (exec_table ∅ 0 (Some 1))
     (trace_sys_enter_execve (exec_table ∅ 0 (Some 1)) ∅ (sample_task "sh") sample_ctx).2
     (sample_task "sh") sample_bprm false).2 !! current_pid (sample_task "sh")
  = Some (pending_of_ctx (sample_task "sh") sample_ctx).
Proof.
  repeat split; reflexivity.
Qed.

(** ** The cgroup gate *)

Lemma is_target_cgroup_true (m : open_maps) (t : task) :
  is_target_cgroup m t = true <->
  (exists target, target_cgroup m = Some target /\ target <> 0) /\
  allowed_cgroups m !! current_cgroup_id t = Some 1.
Proof.
  unfold is_target_cgroup. destruct (target_cgroup m) as [target|].
  2:{ split; [discriminate | intros [(x & Hx & _) _]; discriminate]. }
  destruct (target =? 0) eqn:Hz; bool_facts.
  { split; [discriminate | intros [(x & [= <-] & Hx) _]; contradiction]. }
  destruct (allowed_cgroups m !! current_cgroup_id t) as [allowed|].
  2:{ split; [discriminate | intros [_ H]; discriminate]. }
  destruct (allowed =? 1) eqn:Ha; bool_facts.
  - subst allowed. split; [intros _ | reflexivity].
    split; [exists target; split; [reflexivity | assumption] | reflexivity].
  - split; [discriminate | intros [_ [= H]]; contradiction].
Qed.

Lemma is_exec_target_cgroup_true (m : exec_maps) (t : task) :
  is_exec_target_cgroup m t = true <->
  (exists target, exec_target_cgroup m = Some target /\ target <> 0) /\
  exec_allowed_cgroups m !! current_cgroup_id t = Some 1.
Proof.
  unfold is_exec_target_cgroup. destruct (exec_target_cgroup m) as [target|].
  2:{ split; [discriminate | intros [(x & Hx & _) _]; discriminate]. }
  destruct (target =? 0) eqn:Hz; bool_facts.
  { split; [discriminate | intros [(x & [= <-] & Hx) _]; contradiction]. }
  destruct (exec_allowed_cgroups m !! current_cgroup_id t) as [allowed|].
  2:{ split; [discriminate | intros [_ H]; discriminate]. }
  destruct (allowed =? 1) eqn:Ha; bool_facts.
  - subst allowed. split; [intros _ | reflexivity].
    split; [exists target; split; [reflexivity | assumption] | reflexivity].
  - split; [discriminate | intros [_ [= H]]; contradiction].
Qed.

(** The connect gate asks for presence only. *)
Lemma is_connect_target_cgroup_true (m : connect_maps) (t : task) :
  is_connect_target_cgroup m t = true <->
  (exists target, connect_target_cgroup m = Some target /\ target <> 0) /\
  is_Some (connect_allowed_cgroups m !! current_cgroup_id t).
Proof.
  unfold is_connect_target_cgroup. destruct (connect_target_cgroup m) as [target|].
  2:{ split; [discriminate | intros [(x & Hx & _) _]; discriminate]. }
  destruct (target =? 0) eqn:Hz; bool_facts.
  { split; [discriminate | intros [(x & [= <-] & Hx) _]; contradiction]. }
  destruct (connect_allowed_cgroups m !! current_cgroup_id t) as [allowed|].
  - split; [intros _ | reflexivity].
    split; [exists target; split; [reflexivity | assumption] | exists allowed; reflexivity].
  - split; [discriminate | intros [_ [x H]]; discriminate].
Qed.

(** Outside the gate the open and exec programs and the tracepoint return
    0, emit nothing and leave the correlation map alone. *)
Lemma lsm_open_not_monitored (m : open_maps) (t : task) (f : file) (reserve_ok : bool) :
  is_target_cgroup m t = false -> lsm_open m t f reserve_ok = ProbeResult 0 None.
Proof. intros H. unfold lsm_open. rewrite H. reflexivity. Qed.

Lemma lsm_exec_not_monitored (m : exec_maps) (pend : gmap N pending_exec_args)
    (t : task) (bprm : linux_binprm) (reserve_ok : bool) :
  is_exec_target_cgroup m t = false ->
  lsm_exec m pend t bprm reserve_ok = (ProbeResult 0 None, pend).
Proof. intros H. unfold lsm_exec. rewrite H. reflexivity. Qed.

Lemma trace_sys_enter_execve_not_monitored (m : exec_maps)
    (pend : gmap N pending_exec_args) (t : task) (ctx : sys_enter_execve_args) :
  is_exec_target_cgroup m t = false ->
  trace_sys_enter_execve m pend t ctx = (0%Z, pend).
Proof. intros H. unfold trace_sys_enter_execve. rewrite H. reflexivity. Qed.

Lemma lsm_connect_not_monitored (m : connect_maps) (t : task) (sock : socket)
    (address : sockaddr_mem) (reserve_ok : bool) :
  is_connect_target_cgroup m t = false ->
  lsm_connect m t sock address reserve_ok = ProbeResult 0 None.
Proof. intros H. unfold lsm_connect. rewrite H. reflexivity. Qed.

Lemma lsm_sendmsg_not_monitored (m : connect_maps) (t : task) (sock : socket)
    (msg : msghdr) (reserve_ok : bool) :
  is_connect_target_cgroup m t = false ->
  lsm_sendmsg m t sock msg reserve_ok = ProbeResult 0 None.
Proof. intros H. unfold lsm_sendmsg. rewrite H. reflexivity. Qed.

(** C1 (the code at the failing input). The current cgroup id is in
    [connect_allowed_cgroups] with value 0, not 1, and the sentinel is set:
    the connect and sendmsg programs still run the matcher, return -13 under
    a deny-all policy and emit an event, where the open and exec gates
    would have returned 0 without an event. *)
Theorem connect_gate_ignores_value :
  connect_allowed_cgroups (connect_table {[ 42 := 0 ]} ∅ 0 (Some 0))
    !! current_cgroup_id (sample_task "curl") = Some 0 /\
  retval (lsm_connect (connect_table {[ 42 := 0 ]} ∅ 0 (Some 0)) (sample_task "curl")
            {| sk_protocol := 6 |} (sample_address 16909060 443) true) = (-13)%Z /\
  is_Some (emitted (lsm_connect (connect_table {[ 42 := 0 ]} ∅ 0 (Some 0))
                      (sample_task "curl") {| sk_protocol := 6 |}
                      (sample_address 16909060 443) true)) /\
  retval (lsm_sendmsg (connect_table {[ 42 := 0 ]} ∅ 0 (Some 0)) (sample_task "curl")
            {| sk_protocol := 17 |} (MsgName (sample_address 16909060 53)) true) = (-13)%Z /\
  is_Some (emitted (lsm_sendmsg (connect_table {[ 42 := 0 ]} ∅ 0 (Some 0))
                      (sample_task "curl") {| sk_protocol := 17 |}
                      (MsgName (sample_address 16909060 53)) true)) /\
  is_target_cgroup (open_table ∅ 0 (Some 0)) (sample_task "curl") = true /\
  is_target_cgroup
    {| target_cgroup := Some 7; allowed_cgroups := {[ 42 := 0 ]}; policy_rules := ∅;
       num_rules := Some 0; default_policy := Some 0 |} (sample_task "curl") = false.
Proof.
  split; [reflexivity |].
  split; [reflexivity |].
  split; [vm_compute; eexists; reflexivity |].
  split; [reflexivity |].
  split; [vm_compute; eexists; reflexivity |].
  split; reflexivity.
Qed.

(** ** The verdict and the ring-buffer reservation *)

Lemma lsm_exec_verdict_reservation (m : exec_maps) (pend : gmap N pending_exec_args)
    (t : task) (bprm : linux_binprm) :
  retval (lsm_exec m pend t bprm false).1 = retval (lsm_exec m pend t bprm true).1.
Proof.
  unfold lsm_exec. destruct (is_exec_target_cgroup m t); cbn [negb fst retval];
    [| reflexivity].
  destruct (pend !! current_pid t); reflexivity.
Qed.

Lemma process_network_event_verdict_reservation (m : connect_maps) (t : task)
    (sock : socket) (dest_ip dest_port family : N) :
  retval (process_network_event m t sock dest_ip dest_port family false) =
  retval (process_network_event m t sock dest_ip dest_port family true).
Proof. reflexivity. Qed.

Lemma lsm_connect_verdict_reservation (m : connect_maps) (t : task) (sock : socket)
    (address : sockaddr_mem) :
  retval (lsm_connect m t sock address false) = retval (lsm_connect m t sock address true).
Proof.
  unfold lsm_connect. destruct (is_connect_target_cgroup m t); [| reflexivity].
  cbn [negb]. destruct (read_family address) as [family|]; [| reflexivity].
  destruct (negb (family =? AF_INET)); [reflexivity |].
  destruct (read_sockaddr_in address); reflexivity.
Qed.

Lemma lsm_sendmsg_verdict_reservation (m : connect_maps) (t : task) (sock : socket)
    (msg : msghdr) :
  retval (lsm_sendmsg m t sock msg false) = retval (lsm_sendmsg m t sock msg true).
Proof.
  unfold lsm_sendmsg. destruct (is_connect_target_cgroup m t); [| reflexivity].
  cbn [negb]. destruct msg as [| | msg_name]; try reflexivity.
  destruct (read_family msg_name) as [family|]; [| reflexivity].
  destruct (negb (family =? AF_INET)); [reflexivity |].
  destruct (read_sockaddr_in msg_name); reflexivity.
Qed.

(** In the open program a failed reservation never turns a deny into an
    allow: the override that follows the reservation can only allow. *)
Lemma lsm_open_failed_reservation_not_weaker (m : open_maps) (t : task) (f : file) :
  retval (lsm_open m t f false) = 0%Z -> retval (lsm_open m t f true) = 0%Z.
Proof.
  unfold lsm_open. destruct (is_target_cgroup m t); cbn [negb]; [| intros _; reflexivity].
  destruct (is_nsfs_path (open_resolved_path f)); [intros _; reflexivity |].
  cbn [retval]. intros Hallow.
  match goal with |- context [if ?c then 1%Z else _] => destruct c end;
    [reflexivity | exact Hallow].
Qed.

(** C2 (the code at the failing input). For a task named ["apt-get"] under
    a deny-all policy the open program returns 0 when the reservation
    succeeds and -13 when it fails: the override of the verdict sits after
    the reservation. *)
Theorem lsm_open_verdict_depends_on_reservation :
  retval (lsm_open (open_table ∅ 0 (Some 0)) (sample_task "apt-get")
            (sample_file "/anything" 3) true) = 0%Z /\
  retval (lsm_open (open_table ∅ 0 (Some 0)) (sample_task "apt-get")
            (sample_file "/anything" 3) false) = (-13)%Z.
Proof. split; reflexivity. Qed.

(** * Further properties of the programs *)

(** ** Events mirror the verdict *)

Lemma verdict_of_cases (v : Z) : verdict_of v = 0%Z \/ verdict_of v = (-13)%Z.
Proof. unfold verdict_of. destruct (v =? 0)%Z; [right | left]; reflexivity. Qed.

(** X1. Each of the four LSM programs returns 0 or -13, and whenever it
    submits an event the event's [result] field is the value it returns;
    the open event also carries the operation type the matcher was given. *)
Theorem probe_event_mirrors_verdict :
  (forall (m : open_maps) (t : task) (f : file) (reserve_ok : bool),
     (retval (lsm_open m t f reserve_ok) = 0%Z \/
      retval (lsm_open m t f reserve_ok) = (-13)%Z) /\
     forall e, emitted (lsm_open m t f reserve_ok) = Some e ->
       oe_result e = retval (lsm_open m t f reserve_ok) /\
       oe_operation e = get_file_operation_type f) /\
  (forall (m : exec_maps) (pend : gmap N pending_exec_args) (t : task)
          (bprm : linux_binprm) (reserve_ok : bool),
     (retval (lsm_exec m pend t bprm reserve_ok).1 = 0%Z \/
      retval (lsm_exec m pend t bprm reserve_ok).1 = (-13)%Z) /\
     forall e, emitted (lsm_exec m pend t bprm reserve_ok).1 = Some e ->
       ee_result e = retval (lsm_exec m pend t bprm reserve_ok).1) /\
  (forall (m : connect_maps) (t : task) (sock : socket) (address : sockaddr_mem)
          (reserve_ok : bool),
     (retval (lsm_connect m t sock address reserve_ok) = 0%Z \/
      retval (lsm_connect m t sock address reserve_ok) = (-13)%Z) /\
     forall e, emitted (lsm_connect m t sock address reserve_ok) = Some e ->
       ce_result e = retval (lsm_connect m t sock address reserve_ok)) /\
  (forall (m : connect_maps) (t : task) (sock : socket) (msg : msghdr)
          (reserve_ok : bool),
     (retval (lsm_sendmsg m t sock msg reserve_ok) = 0%Z \/
      retval (lsm_sendmsg m t sock msg reserve_ok) = (-13)%Z) /\
     forall e, emitted (lsm_sendmsg m t sock msg reserve_ok) = Some e ->
       ce_result e = retval (lsm_sendmsg m t sock msg reserve_ok)).
Proof.
  assert (Hnet : forall m t sock ip port family reserve_ok,
            (retval (process_network_event m t sock ip port family reserve_ok) = 0%Z \/
             retval (process_network_event m t sock ip port family reserve_ok) = (-13)%Z) /\
            forall e,
              emitted (process_network_event m t sock ip port family reserve_ok) = Some e ->
              ce_result e =
              retval (process_network_event m t sock ip port family reserve_ok)).
  { intros m t sock ip port family reserve_ok. unfold process_network_event.
    destruct reserve_ok; cbn [negb retval emitted].
    - split; [apply verdict_of_cases | intros e [= <-]; reflexivity].
    - split; [apply verdict_of_cases | intros e; discriminate]. }
  assert (Hidle : forall E : Type,
            (retval (@ProbeResult E 0 None) = 0%Z \/
             retval (@ProbeResult E 0 None) = (-13)%Z) /\
            forall e : E, emitted (@ProbeResult E 0 None) = Some e -> False).
  { intros E. split; [left; reflexivity | intros e; discriminate]. }
  split; [| split; [| split]].
  - intros m t f reserve_ok. unfold lsm_open.
    destruct (is_target_cgroup m t); cbn [negb];
      [| split; [left; reflexivity | intros e; discriminate]].
    destruct (is_nsfs_path (open_resolved_path f));
      [split; [left; reflexivity | intros e; discriminate] |].
    destruct reserve_ok; cbn [negb retval emitted].
    + split; [apply verdict_of_cases | intros e [= <-]; split; reflexivity].
    + split; [apply verdict_of_cases | intros e; discriminate].
  - intros m pend t bprm reserve_ok. unfold lsm_exec.
    destruct (is_exec_target_cgroup m t); cbn [negb fst];
      [| split; [left; reflexivity | intros e; discriminate]].
    destruct reserve_ok; cbn [negb fst retval emitted].
    + destruct (pend !! current_pid t); cbn [fst retval emitted];
        (split; [apply verdict_of_cases | intros e [= <-]; reflexivity]).
    + split; [apply verdict_of_cases | intros e; discriminate].
  - intros m t sock address reserve_ok. unfold lsm_connect.
    destruct (is_connect_target_cgroup m t); cbn [negb];
      [| split; [left; reflexivity | intros e; discriminate]].
    destruct (read_family address) as [family|];
      [| split; [left; reflexivity | intros e; discriminate]].
    destruct (negb (family =? AF_INET));
      [split; [left; reflexivity | intros e; discriminate] |].
    destruct (read_sockaddr_in address) as [uaddr|];
      [apply Hnet | split; [left; reflexivity | intros e; discriminate]].
  - intros m t sock msg reserve_ok. unfold lsm_sendmsg.
    destruct (is_connect_target_cgroup m t); cbn [negb];
      [| split; [left; reflexivity | intros e; discriminate]].
    destruct msg as [| | msg_name];
      try (split; [left; reflexivity | intros e; discriminate]).
    destruct (read_family msg_name) as [family|];
      [| split; [left; reflexivity | intros e; discriminate]].
    destruct (negb (family =? AF_INET));
      [split; [left; reflexivity | intros e; discriminate] |].
    destruct (read_sockaddr_in msg_name) as [kaddr|];
      [apply Hnet | split; [left; reflexivity | intros e; discriminate]].
Qed.

(** ** The exact shape of a namespace-file path *)

Lemma nsfs_prefix_loop_true (path_ prefix : list ascii) (prefix_len : nat) :
  forall iters i : nat,
    nsfs_prefix_loop iters i prefix_len path_ prefix = true <->
    (forall k, (i <= k)%nat -> (k < prefix_len)%nat -> (k < i + iters)%nat ->
       char_at path_ k = char_at prefix k).
Proof.
  induction iters as [|iters IH]; intros i; cbn [nsfs_prefix_loop].
  - split; [intros _ k Hk _ Hlt; lia | reflexivity].
  - destruct (prefix_len <=? i)%nat eqn:Hstop; bool_facts.
    + split; [intros _ k Hk Hlen _; lia | reflexivity].
    + destruct (Ascii.eqb (char_at path_ i) (char_at prefix i)) eqn:Heq;
        cbn [negb]; bool_facts.
      * rewrite IH. split; intros Hall k Hk Hlen Hlt.
        -- destruct (decide (k = i)) as [->|Hne]; [assumption | apply Hall; lia].
        -- apply Hall; lia.
      * split; [discriminate |]. intros Hall. exfalso. apply Heq, Hall; lia.
Qed.

Lemma not_a_digit_char (c : ascii) : is_digit_char c = false -> not_any_digit c = true.
Proof.
  destruct c as [[] [] [] [] [] [] [] []]; vm_compute; intros H;
    first [reflexivity | discriminate H].
Qed.

Lemma is_digit_char_ascii_digit (c : ascii) : is_digit_char c = true -> ascii_digit c.
Proof.
  unfold is_digit_char. intros H. apply andb_true_iff in H as [Hlo Hhi].
  split; apply N.leb_le; assumption.
Qed.

Lemma nsfs_digit_loop_sound (path_ : list ascii) (digit_pos : nat) :
  forall (iters i : nat) (found_digit : bool),
    nsfs_digit_loop iters i digit_pos found_digit path_ = true ->
    exists n : nat,
      (n < iters)%nat /\ (found_digit = true \/ 1 <= n)%nat /\
      (forall k, (k < n)%nat -> ascii_digit (char_at path_ (digit_pos + (i + k)))) /\
      char_at path_ (digit_pos + (i + n)) = "]"%char.
Proof.
  induction iters as [|iters IH]; intros i found_digit; cbn [nsfs_digit_loop];
    [discriminate |].
  destruct (MAX_PATH_LEN <=? digit_pos + i)%nat; [discriminate |].
  destruct (is_digit_char (char_at path_ (digit_pos + i))) eqn:Hdigit.
  - intros Hrest. destruct (IH (S i) true Hrest) as (n & Hn & _ & Hdigits & Hclose).
    exists (S n). split; [lia |]. split; [right; lia |]. split.
    + intros [|k] Hk.
      * rewrite Nat.add_0_r. apply is_digit_char_ascii_digit, Hdigit.
      * replace (i + S k)%nat with (S i + k)%nat by lia. apply Hdigits. lia.
    + replace (i + S n)%nat with (S i + n)%nat by lia. exact Hclose.
  - destruct (Ascii.eqb (char_at path_ (digit_pos + i)) "]" && found_digit) eqn:Hclose.
    + intros _. apply andb_true_iff in Hclose as [Hc Hf]. bool_facts.
      exists 0%nat. split; [lia |]. split; [left; exact Hf |]. split.
      * intros k Hk. lia.
      * rewrite Nat.add_0_r. exact Hc.
    + destruct (Ascii.eqb (char_at path_ (digit_pos + i)) NUL); [discriminate |].
      rewrite (not_a_digit_char _ Hdigit). discriminate.
Qed.

Lemma nsfs_prefix_inv (k : nat) (p : list ascii) (prefix_len : nat) :
  nsfs_prefix k = Some (p, prefix_len) ->
  exists prefix : string,
    In prefix nsfs_prefixes /\ p = chars prefix /\ prefix_len = List.length p /\
    (prefix_len <= 8)%nat.
Proof.
  intros Hk.
  assert (Hfound : forall s : string,
            In s nsfs_prefixes -> (List.length (chars s) <= 8)%nat ->
            exists prefix : string,
              In prefix nsfs_prefixes /\ chars s = chars prefix /\
              List.length (chars s) = List.length (chars s) /\
              (List.length (chars s) <= 8)%nat).
  { intros s Hs Hlen. exists s. repeat split; assumption. }
  destruct k as [|k];
    [injection Hk as <- <-; apply (Hfound "mnt:["%string);
       [unfold nsfs_prefixes; cbn [In]; tauto | cbn; lia] |].
  destruct k as [|k];
    [injection Hk as <- <-; apply (Hfound "net:["%string);
       [unfold nsfs_prefixes; cbn [In]; tauto | cbn; lia] |].
  destruct k as [|k];
    [injection Hk as <- <-; apply (Hfound "ipc:["%string);
       [unfold nsfs_prefixes; cbn [In]; tauto | cbn; lia] |].
  destruct k as [|k];
    [injection Hk as <- <-; apply (Hfound "pid:["%string);
       [unfold nsfs_prefixes; cbn [In]; tauto | cbn; lia] |].
  destruct k as [|k];
    [injection Hk as <- <-; apply (Hfound "uts:["%string);
       [unfold nsfs_prefixes; cbn [In]; tauto | cbn; lia] |].
  destruct k as [|k];
    [injection Hk as <- <-; apply (Hfound "user:["%string);
       [unfold nsfs_prefixes; cbn [In]; tauto | cbn; lia] |].
  destruct k as [|k];
    [injection Hk as <- <-; apply (Hfound "cgroup:["%string);
       [unfold nsfs_prefixes; cbn [In]; tauto | cbn; lia] |].
  destruct k as [|k];
    [injection Hk as <- <-; apply (Hfound "time:["%string);
       [unfold nsfs_prefixes; cbn [In]; tauto | cbn; lia] |].
  discriminate Hk.
Qed.

Lemma nsfs_loop_sound (path_ : list ascii) :
  forall iters prefix_idx : nat,
    nsfs_loop iters prefix_idx path_ = true ->
    exists (k : nat) (p : list ascii) (prefix_len : nat),
      nsfs_prefix k = Some (p, prefix_len) /\
      nsfs_prefix_loop 8 0 prefix_len path_ p = true /\
      nsfs_digit_loop 16 0 prefix_len false path_ = true.
Proof.
  induction iters as [|iters IH]; intros prefix_idx; cbn [nsfs_loop]; [discriminate |].
  destruct (nsfs_prefix prefix_idx) as [[p prefix_len]|] eqn:Hp; [| apply IH].
  destruct (nsfs_prefix_loop 8 0 prefix_len path_ p
            && nsfs_digit_loop 16 0 prefix_len false path_) eqn:Hboth; [| apply IH].
  intros _. apply andb_true_iff in Hboth as [H1 H2].
  exists prefix_idx, p, prefix_len. split; [exact Hp | split; assumption].
Qed.

(** X2. [is_nsfs_path] accepts a buffer exactly when it begins with one of
    the eight namespace prefixes, followed by at least one and at most
    fifteen ASCII digits and then [']']: no other path takes the bypass. *)
Theorem is_nsfs_path_exact (path_ : list ascii) :
  is_nsfs_path path_ = true <-> nsfs_pattern path_.
Proof.
  unfold is_nsfs_path, nsfs_pattern. split.
  - intros Hloop.
    destruct (nsfs_loop_sound path_ 8 0 Hloop) as (k & p & prefix_len & Hk & Hprefix & Hdigits).
    destruct (nsfs_prefix_inv k p prefix_len Hk) as (prefix & Hin & -> & -> & Hshort).
    destruct (nsfs_digit_loop_sound path_ _ 16 0 false Hdigits)
      as (n & Hn & Hfound & Hall & Hclose).
    exists prefix, n. split; [exact Hin |].
    split; [destruct Hfound as [Hf | Hf]; [discriminate | lia] |].
    split; [| split].
    + intros i Hi. apply (proj1 (nsfs_prefix_loop_true _ _ _ 8 0) Hprefix); lia.
    + intros j Hj. apply (Hall j Hj).
    + exact Hclose.
  - intros (prefix & n & Hin & Hn & Hprefix & Hall & Hclose).
    assert (Hcase : forall (k : nat) (p : list ascii) (prefix_len : nat),
              nsfs_prefix k = Some (p, prefix_len) -> (k < 8)%nat ->
              p = chars prefix -> prefix_len = List.length p -> (prefix_len <= 8)%nat ->
              nsfs_loop 8 0 path_ = true).
    { intros k p prefix_len Hk Hk8 -> -> Hshort.
      apply (nsfs_loop_found _ k _ _ Hk); [| | lia].
      - apply nsfs_prefix_loop_true. intros i _ Hi _. apply Hprefix, Hi.
      - apply (nsfs_digit_loop_accepts _ _ (replicate n "0"%char)).
        + rewrite length_replicate. intros j Hj. apply (Hall j Hj).
        + rewrite length_replicate. exact Hclose.
        + right. destruct n; [lia | discriminate].
        + rewrite length_replicate. lia.
        + rewrite length_replicate. unfold MAX_PATH_LEN. lia. }
    unfold nsfs_prefixes in Hin.
    destruct Hin as [<- | Hin]; [apply (Hcase 0%nat _ _ eq_refl); [lia | reflexivity | reflexivity | cbn; lia] |].
    destruct Hin as [<- | Hin]; [apply (Hcase 1%nat _ _ eq_refl); [lia | reflexivity | reflexivity | cbn; lia] |].
    destruct Hin as [<- | Hin]; [apply (Hcase 2%nat _ _ eq_refl); [lia | reflexivity | reflexivity | cbn; lia] |].
    destruct Hin as [<- | Hin]; [apply (Hcase 3%nat _ _ eq_refl); [lia | reflexivity | reflexivity | cbn; lia] |].
    destruct Hin as [<- | Hin]; [apply (Hcase 4%nat _ _ eq_refl); [lia | reflexivity | reflexivity | cbn; lia] |].
    destruct Hin as [<- | Hin]; [apply (Hcase 5%nat _ _ eq_refl); [lia | reflexivity | reflexivity | cbn; lia] |].
    destruct Hin as [<- | Hin]; [apply (Hcase 6%nat _ _ eq_refl); [lia | reflexivity | reflexivity | cbn; lia] |].
    destruct Hin as [<- | Hin]; [apply (Hcase 7%nat _ _ eq_refl); [lia | reflexivity | reflexivity | cbn; lia] |].
    destruct Hin.
Qed.

(** ** The open verdict outside the package-manager override *)

Lemma comm_loop_chars (expected : nat -> ascii) (comm : list ascii) (stop : nat) :
  forall iters i : nat,
    comm_loop iters i stop expected comm = true ->
    forall k, (i <= k)%nat -> (k < stop)%nat -> (k < i + iters)%nat ->
      char_at comm k = expected k.
Proof.
  induction iters as [|iters IH]; intros i Hloop k Hk Hstop Hlt; [lia |].
  cbn [comm_loop] in Hloop.
  destruct (stop <=? i)%nat eqn:Hs; [bool_facts; lia |].
  destruct (Ascii.eqb (char_at comm i) (expected i)) eqn:Heq; [| discriminate].
  cbn [negb] in Hloop. bool_facts.
  destruct (decide (k = i)) as [->|Hne]; [assumption |].
  apply (IH (S i) Hloop); lia.
Qed.

Lemma chars_prefix_of (l b : list ascii) :
  (forall k, (k < List.length l)%nat -> char_at b k = char_at l k) ->
  Forall (fun c => c <> NUL) l ->
  l `prefix_of` b.
Proof.
  revert b. induction l as [|c l IH]; intros b Hchars Hnul; [apply prefix_nil |].
  apply Forall_cons in Hnul as [Hc Hl].
  destruct b as [|c0 b].
  - exfalso. apply Hc. symmetry. apply (Hchars 0%nat). simpl. lia.
  - assert (c0 = c) as -> by (apply (Hchars 0%nat); simpl; lia).
    apply prefix_cons, IH; [| exact Hl].
    intros k Hk. apply (Hchars (S k)). simpl. lia.
Qed.

Lemma cstr_of_prefix (l b : list ascii) :
  l `prefix_of` b -> Forall (fun c => c <> NUL) l ->
  char_at b (List.length l) = NUL -> cstr b = l.
Proof.
  intros [rest ->] Hnul Hend.
  replace (List.length l) with (List.length l + 0)%nat in Hend by lia.
  rewrite char_at_app_r in Hend.
  induction l as [|c l IH]; cbn [app cstr].
  - destruct rest as [|c0 rest]; [reflexivity |].
    unfold char_at in Hend. cbn in Hend. subst c0. reflexivity.
  - apply Forall_cons in Hnul as [Hc Hl].
    destruct (Ascii.eqb c NUL) eqn:Heq; [bool_facts; contradiction |].
    f_equal. apply IH, Hl.
Qed.

Lemma package_manager_override_inv (comm : list ascii) :
  (comm_loop 8 0 7 apt_get_expected comm && Ascii.eqb (char_at comm 7) NUL)
  || comm_loop 5 0 4 dpkg_expected comm
  || comm_loop 7 0 6 update_expected comm = true ->
  package_manager_comm comm.
Proof.
  intros Hany.
  assert (Hliteral : forall (s : string) (expected : nat -> ascii) (iters : nat),
            (List.length (chars s) <= iters)%nat ->
            (forall k, (k < List.length (chars s))%nat -> expected k = char_at (chars s) k) ->
            forallb (fun c => negb (Ascii.eqb c NUL)) (chars s) = true ->
            comm_loop iters 0 (List.length (chars s)) expected comm = true ->
            chars s `prefix_of` comm).
  { intros s expected iters Hiters Hexp Hnul Hloop. apply chars_prefix_of.
    - intros k Hk. rewrite <- Hexp by assumption.
      apply (comm_loop_chars _ _ _ _ _ Hloop); lia.
    - apply Forall_forall. intros c Hc. apply list_elem_of_In in Hc.
      apply (proj1 (forallb_forall _ _) Hnul) in Hc. bool_facts. exact Hc. }
  apply orb_true_iff in Hany as [Hany | Hupdate];
    [apply orb_true_iff in Hany as [Hapt | Hdpkg] |].
  - left. apply andb_true_iff in Hapt as [Hloop Hend]. bool_facts.
    apply cstr_of_prefix; [| | exact Hend].
    + apply (Hliteral "apt-get"%string apt_get_expected 8%nat); try assumption;
        [cbn; lia | | reflexivity].
      intros k Hk. do 7 (destruct k as [|k]; [reflexivity |]). cbn in Hk. lia.
    + repeat constructor; discriminate.
  - right. left.
    apply (Hliteral "dpkg"%string dpkg_expected 5%nat); try assumption;
      [cbn; lia | | reflexivity].
    intros k Hk. do 4 (destruct k as [|k]; [reflexivity |]). cbn in Hk. lia.
  - right. right.
    apply (Hliteral "update"%string update_expected 7%nat); try assumption;
      [cbn; lia | | reflexivity].
    intros k Hk. do 6 (destruct k as [|k]; [reflexivity |]). cbn in Hk. lia.
Qed.

(** X3. In a monitored cgroup, for a path that is not a namespace-file
    path and a task whose 16-byte comm is neither ["apt-get"] nor begins
    with ["dpkg"] or ["update"], the file_open program returns the
    matcher's verdict whether or not the ring-buffer reservation succeeds. *)
Theorem lsm_open_verdict_is_matcher (m : open_maps) (t : task) (f : file)
    (reserve_ok : bool) :
  is_target_cgroup m t = true ->
  is_nsfs_path (open_resolved_path f) = false ->
  ~ package_manager_comm (take 16 (current_comm t)) ->
  retval (lsm_open m t f reserve_ok) =
  verdict_of (check_path_policy m (open_resolved_path f) (get_file_operation_type f)).
Proof.
  intros Hgate Hnsfs Hcomm. unfold lsm_open. rewrite Hgate, Hnsfs. cbn [negb].
  destruct reserve_ok; cbn [negb retval]; [| reflexivity].
  match goal with
  | |- context [if ?c then 1%Z else _] => destruct c eqn:Hoverride
  end; [| reflexivity].
  contradiction Hcomm. apply package_manager_override_inv, Hoverride.
Qed.

Lemma lsm_open_verdict_is_matcher_witness :
  retval (lsm_open (open_table {[ 0%nat := deny_var_log_rw ]} 1 (Some 1))
            (sample_task "cat") (sample_file "/var/log/syslog" 3) false) =
  verdict_of (check_path_policy (open_table {[ 0%nat := deny_var_log_rw ]} 1 (Some 1))
                (open_resolved_path (sample_file "/var/log/syslog" 3))
                (get_file_operation_type (sample_file "/var/log/syslog" 3))).
Proof.
  apply lsm_open_verdict_is_matcher; [reflexivity | reflexivity |].
  intros [H | [[rest H] | [rest H]]]; discriminate H.
Defined.

(** ** Slots past the rule count *)

Lemma first_decision_tables {R : Type} (rules rules' : gmap nat R)
    (body : R -> option Z) (count : nat) :
  (forall i, (i < count)%nat -> rules !! i = rules' !! i) ->
  first_decision (decision_at rules body) 0 count =
  first_decision (decision_at rules' body) 0 count.
Proof.
  intros Hsame. apply first_decision_ext. intros j Hj.
  unfold decision_at. rewrite Hsame by lia. reflexivity.
Qed.

(** X4. The three matchers read the rule array only at the indices below
    [min num_rules CAP] (CAP is 256 for open and connect, 64 for exec): two
    tables with the same rule count and default policy that agree on those
    slots give the same result, whatever the other slots hold. *)
Theorem matchers_ignore_slots_past_count :
  (forall (m m' : open_maps) (observed : list ascii) (mode : N),
     num_rules m = num_rules m' ->
     default_policy m = default_policy m' ->
     (forall i : nat, N.of_nat i < N.min (default 0 (num_rules m)) 256 ->
        policy_rules m !! i = policy_rules m' !! i) ->
     check_path_policy m observed mode = check_path_policy m' observed mode) /\
  (forall (m m' : exec_maps) (pend : gmap N pending_exec_args) (t : task)
          (observed : list ascii),
     exec_num_rules m = exec_num_rules m' ->
     exec_default_policy m = exec_default_policy m' ->
     (forall i : nat, N.of_nat i < N.min (default 0 (exec_num_rules m)) 64 ->
        exec_policy_rules m !! i = exec_policy_rules m' !! i) ->
     check_exec_policy m pend t observed = check_exec_policy m' pend t observed) /\
  (forall (m m' : connect_maps) (n : Z) (dest_ip dest_port : N),
     connect_num_rules m = Some n -> connect_num_rules m' = Some n ->
     (- 2 ^ 31 <= n < 2 ^ 31)%Z ->
     connect_default_policy m = connect_default_policy m' ->
     (forall i : nat, (Z.of_nat i < Z.min n 256)%Z ->
        connect_policy_rules m !! i = connect_policy_rules m' !! i) ->
     check_connect_policy m dest_ip dest_port = check_connect_policy m' dest_ip dest_port).
Proof.
  split; [| split].
  - intros m m' observed mode Hn Hd Hsame. rewrite !check_path_policy_first.
    unfold open_default. rewrite <- Hn, <- Hd.
    rewrite (first_decision_tables (policy_rules m) (policy_rules m')); [reflexivity |].
    intros i Hi. apply Hsame. lia.
  - intros m m' pend t observed Hn Hd Hsame. rewrite !check_exec_policy_first.
    unfold exec_default. rewrite <- Hn, <- Hd.
    rewrite (first_decision_tables (exec_policy_rules m) (exec_policy_rules m'));
      [reflexivity |].
    intros i Hi. apply Hsame. lia.
  - intros m m' n dest_ip dest_port Hn Hn' Hrange Hd Hsame.
    rewrite (check_connect_policy_first m n), (check_connect_policy_first m' n)
      by assumption.
    unfold connect_default. rewrite <- Hd.
    rewrite (first_decision_tables (connect_policy_rules m) (connect_policy_rules m'));
      [reflexivity |].
    intros i Hi. apply Hsame. lia.
Qed.

Lemma matchers_ignore_slots_past_count_witness :
  check_path_policy (open_table {[ 0%nat := zero_length_rule; 1%nat := deny_var_log_rw ]}
                       1 (Some 1)) (chars "/var/log/syslog") OP_OPEN_RW =
  check_path_policy (open_table {[ 0%nat := zero_length_rule ]} 1 (Some 1))
    (chars "/var/log/syslog") OP_OPEN_RW.
Proof.
  destruct matchers_ignore_slots_past_count as (Hopen & _ & _).
  apply Hopen; [reflexivity | reflexivity |].
  intros i Hi. destruct i as [|i]; [reflexivity | cbn in Hi; lia].
Defined.

(** ** What the tracepoint records *)

Lemma leading_strings_drop (args : list user_arg) (i : nat) :
  leading_strings (drop i args) =
  match args !! i with
  | Some (ArgString s) => s :: leading_strings (drop (S i) args)
  | _ => []
  end.
Proof.
  destruct (args !! i) as [x|] eqn:Hx.
  - rewrite (drop_S _ _ _ Hx). destruct x; reflexivity.
  - rewrite drop_ge; [reflexivity |]. apply lookup_ge_None, Hx.
Qed.

Lemma capture_args_loop_leading (args : list user_arg) :
  forall (iters i : nat) (done : list (list ascii)) (argc : N),
    List.length done = i ->
    capture_args_loop iters i args (done ++ replicate iters []) argc =
    (done ++ map stored_arg (take iters (leading_strings (drop i args)))
       ++ replicate (iters - List.length (take iters (leading_strings (drop i args)))) [],
     argc + N.of_nat (List.length (take iters (leading_strings (drop i args))))).
Proof.
  induction iters as [|iters IH]; intros i done argc Hdone.
  - cbn. rewrite N.add_0_r. reflexivity.
  - cbn [capture_args_loop]. rewrite leading_strings_drop.
    destruct (args !! i) as [[| | | s]|] eqn:Hx; cbn [from_option id];
      try (cbn; rewrite N.add_0_r; reflexivity).
    cbn [replicate]. rewrite insert_app_r_alt by lia.
    replace (i - List.length done)%nat with 0%nat by lia. cbn [insert list_insert].
    change (take 23 (cstr s)) with (stored_arg s).
    rewrite (cons_middle (stored_arg s) done), app_assoc.
    rewrite (IH (S i) (done ++ [stored_arg s]) (argc + 1));
      [| rewrite length_app; cbn; lia].
    cbn [take map List.length app]. rewrite <- app_assoc. cbn [app].
    f_equal. lia.
Qed.

(** X5. The record the tracepoint builds counts the readable strings at
    the head of [argv], at most six of them, and keeps each cut to 23
    bytes in the row of its index; when there is none ([argv] is NULL or
    its first slot cannot be read) [argc] is 1 and row 0 is the 16-byte
    comm. In every case [1 <= argc <= 6] and there are six rows. *)
Theorem pending_of_ctx_capture (t : task) (ctx : sys_enter_execve_args) :
  let captured := take 6 (leading_strings (default [] (argv ctx))) in
  match captured with
  | [] =>
      pe_argc (pending_of_ctx t ctx) = 1 /\
      pe_detailed_args (pending_of_ctx t ctx) =
        take 16 (current_comm t) :: replicate 5 []
  | _ :: _ =>
      pe_argc (pending_of_ctx t ctx) = N.of_nat (List.length captured) /\
      pe_detailed_args (pending_of_ctx t ctx) =
        map stored_arg captured ++ replicate (6 - List.length captured) []
  end /\
  1 <= pe_argc (pending_of_ctx t ctx) <= 6 /\
  List.length (pe_detailed_args (pending_of_ctx t ctx)) = 6%nat /\
  pe_timestamp (pending_of_ctx t ctx) = ktime_ns t.
Proof.
  intros captured.
  assert (Hlen : (List.length captured <= 6)%nat).
  { unfold captured. rewrite length_take. lia. }
  assert (Hloop : forall args : list user_arg,
            capture_args_loop 6 0 args (replicate 6 []) 0 =
            (map stored_arg (take 6 (leading_strings args))
               ++ replicate (6 - List.length (take 6 (leading_strings args))) [],
             N.of_nat (List.length (take 6 (leading_strings args))))).
  { intros args. pose proof (capture_args_loop_leading args 6 0 [] 0 eq_refl) as Hcap.
    rewrite drop_0 in Hcap. exact Hcap. }
  unfold pending_of_ctx. destruct (argv ctx) as [args|]; cbn [from_option id] in captured.
  - rewrite Hloop. fold captured. destruct captured as [|s rest] eqn:Hc.
    + simpl. repeat split; lia.
    + cbn [List.length] in *.
      destruct (N.of_nat (S (List.length rest)) =? 0) eqn:Hz; [bool_facts; lia |].
      cbn [pe_argc pe_detailed_args pe_timestamp].
      split; [split; reflexivity |]. split; [lia |]. split; [| reflexivity].
      rewrite length_app, length_map, length_replicate. cbn [List.length]. lia.
  - subst captured. simpl. repeat split; lia.
Qed.

(** ** The correlation map stays within bounds *)

Lemma bpf_map_update_elem_other {V} (max_entries : nat) (m : gmap N V) (k k' : N) (v : V) :
  k' <> k -> bpf_map_update_elem max_entries m k v !! k' = m !! k'.
Proof.
  intros Hne. unfold bpf_map_update_elem.
  destruct (m !! k); [apply lookup_insert_ne; congruence |].
  destruct (size m <? max_entries)%nat; [apply lookup_insert_ne; congruence | reflexivity].
Qed.

Lemma bpf_map_update_elem_size {V} (max_entries : nat) (m : gmap N V) (k : N) (v : V) :
  (size m <= max_entries)%nat -> (size (bpf_map_update_elem max_entries m k v) <= max_entries)%nat.
Proof.
  intros Hsize. unfold bpf_map_update_elem.
  destruct (m !! k) as [old|] eqn:Hk.
  - rewrite (map_size_insert_Some k v m) by (exists old; exact Hk). exact Hsize.
  - destruct (size m <? max_entries)%nat eqn:Hroom; [| exact Hsize].
    rewrite (map_size_insert_None k v m Hk). bool_facts. lia.
Qed.

(** X6. The tracepoint and the exec hook touch the correlation map only
    at the current PID. The tracepoint keeps the map within its 1024
    slots, and when the map is full and the PID has no entry it stores
    nothing. The hook never adds an entry: it leaves the map as it was or
    without the current PID's entry. *)
Theorem pending_exec_args_frame (m : exec_maps) (pend : gmap N pending_exec_args)
    (t : task) (ctx : sys_enter_execve_args) (bprm : linux_binprm) (reserve_ok : bool) :
  (forall k, k <> current_pid t ->
     (trace_sys_enter_execve m pend t ctx).2 !! k = pend !! k) /\
  ((size pend <= 1024)%nat ->
   (size (trace_sys_enter_execve m pend t ctx).2 <= 1024)%nat) /\
  (pend !! current_pid t = None -> (1024 <= size pend)%nat ->
   (trace_sys_enter_execve m pend t ctx).2 = pend) /\
  (forall k, k <> current_pid t ->
     (lsm_exec m pend t bprm reserve_ok).2 !! k = pend !! k) /\
  ((lsm_exec m pend t bprm reserve_ok).2 = pend \/
   (lsm_exec m pend t bprm reserve_ok).2 = delete (current_pid t) pend) /\
  (size (lsm_exec m pend t bprm reserve_ok).2 <= size pend)%nat.
Proof.
  assert (Hhook : (lsm_exec m pend t bprm reserve_ok).2 = pend \/
                  (lsm_exec m pend t bprm reserve_ok).2 = delete (current_pid t) pend).
  { unfold lsm_exec. destruct (is_exec_target_cgroup m t); cbn [negb snd]; [| left; reflexivity].
    destruct reserve_ok; cbn [negb snd]; [| left; reflexivity].
    destruct (pend !! current_pid t); cbn [snd]; [right | left]; reflexivity. }
  split; [| split; [| split; [| split; [| split]]]].
  - intros k Hk. unfold trace_sys_enter_execve.
    destruct (is_exec_target_cgroup m t); cbn [negb snd]; [| reflexivity].
    apply bpf_map_update_elem_other, Hk.
  - intros Hsize. unfold trace_sys_enter_execve.
    destruct (is_exec_target_cgroup m t); cbn [negb snd]; [| exact Hsize].
    apply bpf_map_update_elem_size, Hsize.
  - intros Hnone Hfull. unfold trace_sys_enter_execve.
    destruct (is_exec_target_cgroup m t); cbn [negb snd]; [| reflexivity].
    unfold bpf_map_update_elem. rewrite Hnone.
    destruct (size pend <? 1024)%nat eqn:Hroom; [bool_facts; lia | reflexivity].
  - intros k Hk. destruct Hhook as [-> | ->]; [reflexivity |].
    apply lookup_delete_ne. congruence.
  - exact Hhook.
  - destruct Hhook as [-> | ->]; [lia |].
    rewrite map_size_delete. destruct (pend !! current_pid t); cbn [id]; lia.
Qed.

Lemma pending_exec_args_frame_witness :
  (trace_sys_enter_execve (exec_table ∅ 0 (Some 1)) {[ 7 := pending_args ["cat"] ]}
     (sample_task "sh") sample_ctx).2 !! 7 = Some (pending_args ["cat"]) /\
  (size (trace_sys_enter_execve (exec_table ∅ 0%N (Some 1%N))
           {[ 7%N := pending_args ["cat"] ]} (sample_task "sh") sample_ctx).2 <= 1024)%nat.
Proof.
  destruct (pending_exec_args_frame (exec_table ∅ 0 (Some 1))
              {[ 7 := pending_args ["cat"] ]} (sample_task "sh") sample_ctx
              sample_bprm true) as (Hother & Hsize & _).
  split.
  - rewrite Hother; [reflexivity | discriminate].
  - apply Hsize. rewrite map_size_singleton. lia.
Defined.

(** ** An exec with no correlated arguments *)

(** X7. When the exec hook finds no entry for the current PID (in a
    monitored cgroup, with a reserved record) the event it emits has
    [argc = 0] and six zeroed argument rows, the map is left untouched, and
    only rules with [arg_count = 0] can have decided: the verdict is the
    one of the table without any given rule that has arguments. *)
Theorem lsm_exec_without_correlation (m : exec_maps) (pend : gmap N pending_exec_args)
    (t : task) (bprm : linux_binprm) :
  is_exec_target_cgroup m t = true ->
  pend !! current_pid t = None ->
  (exists e : exec_event,
     emitted (lsm_exec m pend t bprm true).1 = Some e /\
     (lsm_exec m pend t bprm true).2 = pend /\
     ee_argc e = 0%Z /\
     ee_detailed_args e = replicate 6 [] /\
     ee_result e = verdict_of (check_exec_policy m pend t (exec_resolved_path bprm))) /\
  (forall (i : nat) (r : exec_policy_rule),
     exec_policy_rules m !! i = Some r -> er_arg_count r <> 0 ->
     check_exec_policy (without_exec_rule i m) pend t (exec_resolved_path bprm) =
     check_exec_policy m pend t (exec_resolved_path bprm)).
Proof.
  intros Hgate Hmiss. split.
  - unfold lsm_exec. rewrite Hgate, Hmiss. cbn [negb].
    cbn [fst snd emitted]. eexists. split; [reflexivity |].
    cbn [ee_argc ee_detailed_args ee_result]. repeat split; reflexivity.
  - intros i r Hr Hcount. apply (check_exec_policy_skip m pend t _ i r Hr).
    rewrite Hmiss. apply exec_rule_body_None.
    intros v (_ & [[Hzero _] | (_ & _ & _ & pe & Hpe & _)]); [contradiction | discriminate].
Qed.

Lemma lsm_exec_without_correlation_witness :
  exists e : exec_event,
    emitted (lsm_exec
               (exec_table {[ 0%nat := exec_rule 0 "/bin/" ["--privileged"] ]} 1 (Some 1))
               ∅ (sample_task "sh") sample_bprm true).1 = Some e /\
    (lsm_exec (exec_table {[ 0%nat := exec_rule 0 "/bin/" ["--privileged"] ]} 1 (Some 1))
       ∅ (sample_task "sh") sample_bprm true).2 = ∅ /\
    ee_argc e = 0%Z /\
    ee_detailed_args e = replicate 6 [] /\
    ee_result e =
    verdict_of (check_exec_policy
                  (exec_table {[ 0%nat := exec_rule 0 "/bin/" ["--privileged"] ]} 1 (Some 1))
                  ∅ (sample_task "sh") (exec_resolved_path sample_bprm)).
Proof.
  apply (lsm_exec_without_correlation
           (exec_table {[ 0%nat := exec_rule 0 "/bin/" ["--privileged"] ]} 1 (Some 1))
           ∅ (sample_task "sh") sample_bprm); reflexivity.
Defined.

(** ** From the execve arguments to the verdict *)

Lemma leading_strings_all (args : list (list ascii)) :
  leading_strings (map ArgString args) = args.
Proof. induction args as [|a args IH]; cbn; [reflexivity | rewrite IH; reflexivity]. Qed.

Lemma pending_of_ctx_all_strings (t : task) (ctx : sys_enter_execve_args)
    (args : list (list ascii)) :
  argv ctx = Some (map ArgString args) -> args <> [] ->
  pe_argc (pending_of_ctx t ctx) = N.of_nat (List.length (take 6 args)) /\
  pe_detailed_args (pending_of_ctx t ctx) =
    map stored_arg (take 6 args) ++ replicate (6 - List.length (take 6 args)) [].
Proof.
  intros Hargv Hne. unfold pending_of_ctx. rewrite Hargv.
  pose proof (capture_args_loop_leading (map ArgString args) 6 0 [] 0 eq_refl) as Hcap.
  rewrite drop_0, leading_strings_all in Hcap.
  change ([] ++ replicate 6 []) with (replicate 6 (@nil ascii)) in Hcap.
  rewrite Hcap. cbn [app].
  destruct args as [|a args]; [contradiction |]. cbn [take List.length].
  destruct (0 + N.of_nat (S (List.length (take 5 args))) =? 0) eqn:Hz; [bool_facts; lia |].
  cbn [pe_argc pe_detailed_args]. split; [lia | reflexivity].
Qed.

Lemma cstr_no_nul (a : list ascii) : Forall (fun c => c <> NUL) a -> cstr a = a.
Proof.
  induction 1 as [|c a Hc _ IH]; cbn [cstr]; [reflexivity |].
  destruct (Ascii.eqb c NUL) eqn:Heq; [bool_facts; contradiction |].
  rewrite IH. reflexivity.
Qed.

Lemma lsm_exec_retval (m : exec_maps) (pend : gmap N pending_exec_args) (t : task)
    (bprm : linux_binprm) (reserve_ok : bool) :
  is_exec_target_cgroup m t = true ->
  retval (lsm_exec m pend t bprm reserve_ok).1 =
  verdict_of (check_exec_policy m pend t (exec_resolved_path bprm)).
Proof.
  intros Hgate. unfold lsm_exec. rewrite Hgate. cbn [negb].
  destruct reserve_ok; cbn [negb fst retval]; [| reflexivity].
  destruct (pend !! current_pid t); reflexivity.
Qed.

(** X8. End to end through the correlation map: an execve whose [argv]
    holds only readable strings is denied (-13) by the hook that follows
    the tracepoint when the first rule the matcher reaches for its path is
    a deny rule whose pattern 0 is a prefix of one of [argv[1]], [argv[2]],
    [argv[3]]. The comparison stops at the pattern's length, so an
    argument that merely begins with the pattern is denied as well. *)
Theorem execve_blacklisted_argument_denied (m : exec_maps)
    (pend : gmap N pending_exec_args) (t : task) (ctx : sys_enter_execve_args)
    (bprm : linux_binprm) (reserve_ok : bool) (args : list (list ascii))
    (i : nat) (r : exec_policy_rule) (k : nat) (a : list ascii) :
  is_exec_target_cgroup m t = true ->
  is_Some (pend !! current_pid t) \/ (size pend < 1024)%nat ->
  argv ctx = Some (map ArgString args) ->
  N.of_nat i < N.min (default 0 (exec_num_rules m)) 64 ->
  exec_policy_rules m !! i = Some r ->
  exec_reaches m (exec_resolved_path bprm) (Some (pending_of_ctx t ctx)) i ->
  exec_path_matches (exec_resolved_path bprm) r ->
  er_action r = 0 -> 1 <= er_arg_count r ->
  len_at (er_arg_lens r) 0 <= N.of_nat (List.length (row_at (er_args r) 0)) ->
  (1 <= k <= 3)%nat -> args !! k = Some a ->
  Forall (fun c => c <> NUL) a ->
  row_at (er_args r) 0 `prefix_of` a ->
  retval (lsm_exec m (trace_sys_enter_execve m pend t ctx).2 t bprm reserve_ok).1
  = (-13)%Z.
Proof.
  intros Hgate Hroom Hargv Hi Hr Hreach Hpath Hdeny Hcount Hlen Hk Ha Hnul Hprefix.
  rewrite lsm_exec_retval by assumption.
  pose proof (trace_sys_enter_execve_stores m pend t ctx Hgate Hroom) as Hstored.
  assert (Hargs : args <> []) by (intros ->; discriminate Ha).
  destruct (pending_of_ctx_all_strings t ctx args Hargv Hargs) as [Hargc Hrows].
  assert (Hka : take 6 args !! k = Some a) by (rewrite lookup_take_lt by lia; exact Ha).
  assert (Hklen : (k < List.length (take 6 args))%nat)
    by (apply lookup_lt_is_Some; exists a; exact Hka).
  rewrite (check_exec_policy_decided m _ t _ i r 0%Z); [reflexivity | assumption.. | | ].
  - rewrite Hstored. exact Hreach.
  - rewrite Hstored. split; [exact Hpath | right].
    split; [lia | split; [exact Hdeny | split; [reflexivity |]]].
    exists (pending_of_ctx t ctx). split; [reflexivity |].
    exists 0%nat, k. split; [lia |]. split; [lia |]. split; [rewrite Hargc; lia |].
    intros j Hj. unfold row_at at 1. rewrite Hrows.
    rewrite lookup_app_l by (rewrite length_map; exact Hklen).
    rewrite list_lookup_fmap, Hka. cbn [fmap option_fmap option_map from_option id].
    unfold stored_arg. rewrite (cstr_no_nul a Hnul).
    rewrite char_at_take by lia.
    apply char_at_prefix; [exact Hprefix | lia].
Qed.

Lemma execve_blacklisted_argument_denied_witness :
  retval (lsm_exec (exec_table {[ 0%nat := exec_rule 0 "/bin/" ["--priv"] ]} 1 (Some 1))
            (trace_sys_enter_execve
               (exec_table {[ 0%nat := exec_rule 0 "/bin/" ["--priv"] ]} 1 (Some 1)) ∅
               (sample_task "sh")
               {| filename := Some (chars "/bin/ls");
                  argv := Some (map ArgString [chars "ls"; chars "--privileged"]) |}).2
            (sample_task "sh") sample_bprm false).1 = (-13)%Z.
Proof.
  apply (execve_blacklisted_argument_denied _ _ _ _ _ _
           [chars "ls"; chars "--privileged"] 0%nat (exec_rule 0 "/bin/" ["--priv"])
           1%nat (chars "--privileged")).
  - reflexivity.
  - right. rewrite map_size_empty. lia.
  - reflexivity.
  - reflexivity.
  - reflexivity.
  - intros j r' v' Hj. lia.
  - split; [cbn; lia |]. unfold prefix_equal. prefix_cases 5.
  - reflexivity.
  - cbn. lia.
  - cbn. lia.
  - lia.
  - reflexivity.
  - apply Forall_forall. intros c Hc. apply list_elem_of_In in Hc.
    cbn in Hc. intuition (subst; discriminate).
  - exists (chars "ileged"). reflexivity.
Defined.

(** ** What the network programs decide on *)

(** X9. The connect program denies or logs only in a monitored cgroup and
    for an address whose family reads as AF_INET and whose [sockaddr_in]
    can be read; then it is [process_network_event] on that address and
    port. The sendmsg program does nothing without [msg_name] and otherwise
    decides exactly as the connect program does on the same address. *)
Theorem network_hooks_ipv4_only (m : connect_maps) (t : task) (sock : socket)
    (address : sockaddr_mem) (reserve_ok : bool) :
  (lsm_connect m t sock address reserve_ok <> ProbeResult 0 None ->
   is_connect_target_cgroup m t = true /\
   read_family address = Some AF_INET /\
   exists uaddr : sockaddr_in,
     read_sockaddr_in address = Some uaddr /\
     lsm_connect m t sock address reserve_ok =
     process_network_event m t sock (sin_addr uaddr) (sin_port uaddr) AF_INET reserve_ok) /\
  lsm_sendmsg m t sock (MsgName address) reserve_ok =
  lsm_connect m t sock address reserve_ok /\
  lsm_sendmsg m t sock MsgNoName reserve_ok = ProbeResult 0 None /\
  lsm_sendmsg m t sock MsgFault reserve_ok = ProbeResult 0 None.
Proof.
  split; [| split; [| split]].
  - unfold lsm_connect. intros Hactive.
    destruct (is_connect_target_cgroup m t); cbn [negb] in *; [| contradiction].
    destruct (read_family address) as [family|]; [| contradiction].
    destruct (family =? AF_INET) eqn:Hfamily; cbn [negb] in *; [| contradiction].
    bool_facts. subst family.
    destruct (read_sockaddr_in address) as [uaddr|]; [| contradiction].
    split; [reflexivity | split; [reflexivity |]].
    exists uaddr. split; reflexivity.
  - reflexivity.
  - unfold lsm_sendmsg. destruct (is_connect_target_cgroup m t); reflexivity.
  - unfold lsm_sendmsg. destruct (is_connect_target_cgroup m t); reflexivity.
Qed.

Lemma connect_rule_body_fields (dest_ip dest_port : N) (r r' : connect_policy_rule) :
  cr_action r = cr_action r' -> cr_dest_ip r = cr_dest_ip r' ->
  cr_dest_port r = cr_dest_port r' ->
  connect_rule_body dest_ip dest_port r = connect_rule_body dest_ip dest_port r'.
Proof. intros Ha Hi Hp. unfold connect_rule_body. rewrite Ha, Hi, Hp. reflexivity. Qed.

(** X10. Host names never bear on the verdict. Two configurations with
    the same rule count and default policy whose rules agree, slot by
    slot, on action, address and port give the same result of the connect
    matcher and the same return value of [process_network_event], whatever
    their [hostname], [hostname_len] and [is_wildcard] fields and their DNS
    caches hold. The cache shows only in the event: its host name is the
    cached string cut to 127 bytes, or empty without a cache entry. *)
Theorem hostnames_are_not_enforced (m m' : connect_maps) (t : task) (sock : socket)
    (dest_ip dest_port family : N) (reserve_ok : bool) :
  connect_num_rules m = connect_num_rules m' ->
  connect_default_policy m = connect_default_policy m' ->
  (forall i : nat,
     match connect_policy_rules m !! i, connect_policy_rules m' !! i with
     | Some r, Some r' =>
         cr_action r = cr_action r' /\ cr_dest_ip r = cr_dest_ip r' /\
         cr_dest_port r = cr_dest_port r'
     | None, None => True
     | _, _ => False
     end) ->
  check_connect_policy m dest_ip dest_port = check_connect_policy m' dest_ip dest_port /\
  retval (process_network_event m t sock dest_ip dest_port family reserve_ok) =
  retval (process_network_event m' t sock dest_ip dest_port family reserve_ok) /\
  forall e,
    emitted (process_network_event m t sock dest_ip dest_port family reserve_ok) = Some e ->
    ce_dest_hostname e =
    match dns_cache m !! dest_ip with
    | Some cached => cstr (take 127 cached)
    | None => []
    end.
Proof.
  intros Hn Hd Hrules.
  assert (Hsame : check_connect_policy m dest_ip dest_port =
                  check_connect_policy m' dest_ip dest_port).
  { unfold check_connect_policy, connect_default. rewrite <- Hn, <- Hd.
    destruct (connect_num_rules m) as [n|]; [| reflexivity].
    destruct (n <=? 0)%Z; [reflexivity |].
    rewrite !connect_policy_loop_first.
    rewrite (first_decision_ext _
               (decision_at (connect_policy_rules m')
                  (connect_rule_body dest_ip dest_port))); [reflexivity |].
    intros j _. unfold decision_at. specialize (Hrules j).
    destruct (connect_policy_rules m !! j) as [r|],
             (connect_policy_rules m' !! j) as [r'|]; try contradiction; [| reflexivity].
    destruct Hrules as (Ha & Hi & Hp). apply connect_rule_body_fields; assumption. }
  split; [exact Hsame |]. split.
  - unfold process_network_event. rewrite Hsame. destruct reserve_ok; reflexivity.
  - unfold process_network_event. destruct reserve_ok; cbn [negb emitted];
      [| intros e; discriminate].
    intros e [= <-]. reflexivity.
Qed.

Lemma hostnames_are_not_enforced_witness :
  check_connect_policy
    (connect_table {[ 42 := 1 ]} {[ 0%nat := connect_rule 1 0 443 ]} 1 (Some 0)) 16909060 443 =
  check_connect_policy
    {| connect_target_cgroup := Some 7;
       connect_allowed_cgroups := {[ 42 := 1 ]};
       connect_policy_rules :=
         {[ 0%nat := {| cr_action := 1; cr_operation := 4; cr_dest_ip := 0;
                        cr_dest_port := 443; cr_hostname := chars "*.example.com";
                        cr_hostname_len := 13; cr_is_wildcard := 1 |} ]};
       connect_num_rules := Some 1%Z;
       connect_default_policy := Some 0;
       dns_cache := {[ 16909060 := chars "evil.test" ]} |} 16909060 443.
Proof.
  apply (hostnames_are_not_enforced _ _ (sample_task "curl") {| sk_protocol := 6 |}
           16909060 443 AF_INET true); [reflexivity | reflexivity |].
  intros i. destruct i as [|i].
  - cbn. repeat split; reflexivity.
  - unfold connect_table. cbn [connect_policy_rules].
    rewrite !lookup_singleton_ne by lia. exact I.
Defined.

(** ** The host-name helpers *)

Lemma hostname_prefix_loop_true (hostname prefix : list ascii) (prefix_len : N) :
  forall iters i : nat,
    hostname_prefix_loop iters i prefix_len hostname prefix = true <->
    (forall k, (i <= k)%nat -> (k < i + iters)%nat -> (k < MAX_HOSTNAME_LEN)%nat ->
       N.of_nat k < prefix_len ->
       char_at hostname k = char_at prefix k /\ char_at hostname k <> NUL).
Proof.
  induction iters as [|iters IH]; intros i; cbn [hostname_prefix_loop].
  - split; [intros _ k Hk Hlt; lia | reflexivity].
  - destruct ((i <? MAX_HOSTNAME_LEN)%nat && (N.of_nat i <? prefix_len)) eqn:Hgo;
      cbn [negb].
    + bool_facts.
      destruct (Ascii.eqb (char_at hostname i) (char_at prefix i)) eqn:Heq;
        cbn [negb]; bool_facts.
      * destruct (Ascii.eqb (char_at hostname i) NUL) eqn:Hnul; bool_facts.
        -- split; [discriminate |]. intros Hall.
           destruct (Hall i) as [_ Hne]; [lia.. | assumption |]. contradiction.
        -- rewrite IH. split; intros Hall k Hk Hlt Hmax Hlen.
           ++ destruct (decide (k = i)) as [->|Hne]; [split; assumption |].
              apply Hall; [lia | lia | assumption | assumption].
           ++ apply Hall; [lia | lia | assumption | assumption].
      * split; [discriminate |]. intros Hall.
        destruct (Hall i) as [Hsame _]; [lia.. | assumption |]. contradiction.
    + split; [intros _ | reflexivity]. intros k Hk Hlt Hmax Hlen.
      exfalso. apply andb_false_iff in Hgo as [Hc | Hc]; bool_facts; lia.
Qed.

(** X11. [hostname_starts_with] succeeds exactly when the prefix length is
    0, or the first [min prefix_len 128] bytes of the host name equal those
    of the prefix and none of them is NUL: a host name shorter than the
    prefix never matches. *)
Theorem hostname_starts_with_exact (hostname prefix : list ascii) (prefix_len : N) :
  hostname_starts_with hostname prefix prefix_len = true <->
  prefix_len = 0 \/
  (forall k : nat, N.of_nat k < N.min prefix_len 128 ->
     char_at hostname k = char_at prefix k /\ char_at hostname k <> NUL).
Proof.
  unfold hostname_starts_with. destruct (prefix_len =? 0) eqn:Hz; bool_facts.
  - split; [intros _; left; exact Hz | reflexivity].
  - rewrite hostname_prefix_loop_true. unfold MAX_HOSTNAME_LEN. split.
    + intros Hall. right. intros k Hk. apply Hall; lia.
    + intros [Hzero | Hall]; [contradiction |]. intros k _ _ Hmax Hlen. apply Hall. lia.
Qed.

Lemma hostname_len_loop_found (hostname : list ascii) (len : nat) :
  (forall k, (k < len)%nat -> char_at hostname k <> NUL) ->
  char_at hostname len = NUL ->
  forall iters i : nat,
    (i <= len)%nat -> (len < i + iters)%nat ->
    hostname_len_loop iters i hostname = N.of_nat len.
Proof.
  intros Hbody Hend. induction iters as [|iters IH]; intros i Hi Hlt; [lia |].
  cbn [hostname_len_loop].
  destruct (Ascii.eqb (char_at hostname i) NUL) eqn:Hnul; bool_facts.
  - destruct (decide (i = len)) as [->|Hne]; [reflexivity |].
    exfalso. apply (Hbody i); [lia | assumption].
  - apply IH; [| lia]. destruct (decide (i = len)) as [->|Hne]; [contradiction | lia].
Qed.

Lemma hostname_suffix_loop_true (hostname pattern : list ascii) (suffix_len : N)
    (start_pos : nat) :
  forall iters i : nat,
    hostname_suffix_loop iters i suffix_len start_pos hostname pattern = true <->
    (forall k, (i <= k)%nat -> (k < i + iters)%nat -> (k < MAX_HOSTNAME_LEN)%nat ->
       N.of_nat k < suffix_len ->
       char_at hostname (start_pos + k) = char_at pattern (2 + k)).
Proof.
  induction iters as [|iters IH]; intros i; cbn [hostname_suffix_loop].
  - split; [intros _ k Hk Hlt; lia | reflexivity].
  - destruct ((N.of_nat i <? suffix_len) && (i <? MAX_HOSTNAME_LEN)%nat) eqn:Hgo;
      cbn [negb].
    + bool_facts.
      destruct (Ascii.eqb (char_at hostname (start_pos + i)) (char_at pattern (2 + i)))
        eqn:Heq; cbn [negb]; bool_facts.
      * rewrite IH. split; intros Hall k Hk Hlt Hmax Hlen.
        -- destruct (decide (k = i)) as [->|Hne]; [assumption |].
           apply Hall; [lia | lia | assumption | assumption].
        -- apply Hall; [lia | lia | assumption | assumption].
      * split; [discriminate |]. intros Hall. exfalso. apply Heq, Hall; [lia.. | assumption].
    + split; [intros _ | reflexivity]. intros k Hk Hlt Hmax Hlen.
      exfalso. apply andb_false_iff in Hgo as [Hc | Hc]; bool_facts; lia.
Qed.

Lemma cstr_has_no_nul (b : list ascii) : Forall (fun c => c <> NUL) (cstr b).
Proof.
  induction b as [|c b IH]; cbn [cstr]; [constructor |].
  destruct (Ascii.eqb c NUL) eqn:Heq; [constructor |].
  constructor; [bool_facts; assumption | exact IH].
Qed.

Lemma char_at_lookup (l : list ascii) (k : nat) (c : ascii) :
  l !! k = Some c -> char_at l k = c.
Proof. intros H. unfold char_at. rewrite H. reflexivity. Qed.

Lemma chars_equal (l1 l2 : list ascii) :
  List.length l1 = List.length l2 ->
  (forall k, (k < List.length l2)%nat -> char_at l1 k = char_at l2 k) ->
  l1 = l2.
Proof.
  intros Hlen Hchars. apply list_eq. intros k.
  destruct (l2 !! k) as [c2|] eqn:H2.
  - assert (Hk : (k < List.length l2)%nat) by (apply lookup_lt_is_Some; eauto).
    destruct (l1 !! k) as [c1|] eqn:H1.
    + specialize (Hchars k Hk). rewrite (char_at_lookup _ _ _ H1), (char_at_lookup _ _ _ H2) in Hchars.
      congruence.
    + apply lookup_ge_None in H1. lia.
  - apply lookup_ge_None in H2. apply lookup_ge_None. lia.
Qed.

Lemma char_at_drop (l : list ascii) (n k : nat) :
  char_at (drop n l) k = char_at l (n + k).
Proof. unfold char_at. rewrite lookup_drop. reflexivity. Qed.

Lemma char_at_middle (label suffix : list ascii) (c : ascii) :
  char_at (label ++ c :: suffix) (List.length label) = c.
Proof.
  replace (List.length label) with (List.length label + 0)%nat by lia.
  rewrite char_at_app_r. reflexivity.
Qed.

(** X12. [hostname_matches_wildcard] on a NUL-terminated host name of
    fewer than 128 bytes and a pattern [*.suffix] of the given length
    succeeds exactly when the host name is [label.suffix] for some (possibly
    empty) label: the bare suffix does not match, nor does a name that only
    ends with the suffix without the dot before it. *)
Theorem hostname_matches_wildcard_subdomain (hostname pattern s suffix rest : list ascii)
    (pattern_len : N) :
  cstr hostname = s -> (List.length s < 128)%nat ->
  pattern = "*"%char :: "."%char :: suffix ++ rest -> suffix <> [] ->
  pattern_len = N.of_nat (2 + List.length suffix) ->
  hostname_matches_wildcard hostname pattern pattern_len = true <->
  exists label : list ascii, s = label ++ "."%char :: suffix.
Proof.
  intros Hs Hshort -> Hsuffix ->.
  set (n := List.length suffix). set (L := List.length s).
  assert (Hn : (1 <= n)%nat) by (subst n; destruct suffix; [contradiction | cbn; lia]).
  destruct (cstr_char_at s hostname Hs) as [Hchars Hend]. fold L in Hchars, Hend.
  assert (Hnonul : forall k, (k < L)%nat -> char_at hostname k <> NUL).
  { intros k Hk. rewrite Hchars by assumption.
    destruct (lookup_lt_is_Some_2 s k Hk) as [c Hc].
    rewrite (char_at_lookup _ _ _ Hc).
    pose proof (cstr_has_no_nul hostname) as Hall. rewrite Hs in Hall.
    apply (proj1 (Forall_lookup _ _) Hall k c Hc). }
  assert (Hlabel : forall label, s = label ++ "."%char :: suffix ->
            L = (List.length label + 1 + n)%nat).
  { intros label Heq. subst L n. rewrite Heq, length_app. cbn [List.length]. lia. }
  assert (Hdrop : (n <= L)%nat ->
            hostname_suffix_loop MAX_HOSTNAME_LEN 0 (N.of_nat n) (L - n) hostname
              ("*"%char :: "."%char :: suffix ++ rest) = true <->
            drop (L - n) s = suffix).
  { intros Hle. rewrite hostname_suffix_loop_true. unfold MAX_HOSTNAME_LEN. split.
    - intros Hloop. apply chars_equal; [rewrite length_drop; fold L n; lia |].
      intros k Hk. fold n in Hk. rewrite char_at_drop, <- Hchars by lia.
      rewrite Hloop by lia.
      change (char_at ("*"%char :: "."%char :: suffix ++ rest) (2 + k))
        with (char_at (suffix ++ rest) k).
      apply char_at_app_l. exact Hk.
    - intros Heq k _ _ _ Hk.
      change (char_at ("*"%char :: "."%char :: suffix ++ rest) (2 + k))
        with (char_at (suffix ++ rest) k).
      rewrite char_at_app_l by (fold n; lia).
      rewrite <- Heq, char_at_drop. apply Hchars. lia. }
  unfold hostname_matches_wildcard.
  destruct (N.of_nat (2 + n) <? 3) eqn:Hthree; [bool_facts; lia |].
  change (char_at ("*"%char :: "."%char :: suffix ++ rest) 0) with "*"%char.
  change (char_at ("*"%char :: "."%char :: suffix ++ rest) 1) with "."%char.
  rewrite !(proj2 (Ascii.eqb_eq _ _) eq_refl). cbn [negb orb].
  replace (N.of_nat (2 + n) - 2) with (N.of_nat n) by lia.
  rewrite (hostname_len_loop_found hostname L Hnonul Hend MAX_HOSTNAME_LEN 0)
    by (unfold MAX_HOSTNAME_LEN; lia).
  destruct (N.of_nat L <? N.of_nat n) eqn:Hlt; bool_facts.
  { split; [discriminate |]. intros [label Heq]. apply Hlabel in Heq. lia. }
  replace (N.to_nat (N.of_nat L - N.of_nat n)) with (L - n)%nat by lia.
  destruct (hostname_suffix_loop MAX_HOSTNAME_LEN 0 (N.of_nat n) (L - n) hostname
              ("*"%char :: "."%char :: suffix ++ rest)) eqn:Hloop; cbn [negb].
  2:{ split; [discriminate |]. intros [label Heq].
      pose proof (Hlabel label Heq) as HL.
      assert (Hd : drop (L - n) s = suffix).
      { replace (L - n)%nat with (List.length (label ++ ["."%char]))
          by (rewrite length_app; cbn [List.length]; lia).
        rewrite Heq, (cons_middle "."%char label suffix), app_assoc.
        apply drop_app_length. }
      apply Hdrop in Hd; [discriminate Hd | lia]. }
  assert (Hsuf : drop (L - n) s = suffix) by (apply Hdrop; [lia | reflexivity]).
  destruct (N.of_nat L =? N.of_nat n) eqn:Heqlen; bool_facts.
  { split; [discriminate |]. intros [label Heq]. apply Hlabel in Heq. lia. }
  assert (Hpos : (0 <? L - n)%nat = true) by (apply Nat.ltb_lt; lia).
  rewrite Hpos. cbn [andb]. rewrite Hchars by lia.
  destruct (Ascii.eqb (char_at s (L - n - 1)) ".") eqn:Hdot; cbn [negb]; bool_facts.
  - split; [intros _ | reflexivity]. exists (take (L - n - 1) s).
    destruct (lookup_lt_is_Some_2 s (L - n - 1)) as [c Hc]; [fold L; lia |].
    rewrite (char_at_lookup _ _ _ Hc) in Hdot. subst c.
    rewrite <- (take_drop (L - n - 1) s) at 1. f_equal.
    rewrite (drop_S _ _ _ Hc). f_equal.
    replace (S (L - n - 1)) with (L - n)%nat by lia. exact Hsuf.
  - split; [discriminate |]. intros [label Heq]. exfalso. apply Hdot.
    pose proof (Hlabel label Heq) as HL.
    replace (L - n - 1)%nat with (List.length label) by lia.
    rewrite Heq. apply char_at_middle.
Qed.

Lemma hostname_matches_wildcard_subdomain_witness :
  hostname_matches_wildcard (chars "api.example.com") (chars "*.example.com") 13 = true <->
  exists label : list ascii, chars "api.example.com" = label ++ "."%char :: chars "example.com".
Proof.
  apply (hostname_matches_wildcard_subdomain _ _ _ _ []);
    [reflexivity | cbn; lia | reflexivity | discriminate | reflexivity].
Defined.

(** ** The gate of the open and exec programs *)

(** X13. For the file_open program, the exec hook and the execve
    tracepoint: when the sentinel slot is missing or zero, or the current
    cgroup id is not in the allowed map with value 1, the program returns
    0, emits nothing and leaves the correlation map as it was. *)
Theorem open_exec_gate_closed :
  (forall (m : open_maps) (t : task) (f : file) (reserve_ok : bool),
     target_cgroup m = None \/ target_cgroup m = Some 0 \/
     allowed_cgroups m !! current_cgroup_id t <> Some 1 ->
     lsm_open m t f reserve_ok = ProbeResult 0 None) /\
  (forall (m : exec_maps) (pend : gmap N pending_exec_args) (t : task)
          (bprm : linux_binprm) (ctx : sys_enter_execve_args) (reserve_ok : bool),
     exec_target_cgroup m = None \/ exec_target_cgroup m = Some 0 \/
     exec_allowed_cgroups m !! current_cgroup_id t <> Some 1 ->
     lsm_exec m pend t bprm reserve_ok = (ProbeResult 0 None, pend) /\
     trace_sys_enter_execve m pend t ctx = (0%Z, pend)).
Proof.
  split.
  - intros m t f reserve_ok Hclosed. apply lsm_open_not_monitored.
    destruct (is_target_cgroup m t) eqn:Hgate; [| reflexivity].
    apply is_target_cgroup_true in Hgate as [(target & Htarget & Hnz) Hallowed].
    destruct Hclosed as [H | [H | H]]; congruence.
  - intros m pend t bprm ctx reserve_ok Hclosed.
    assert (Hgate : is_exec_target_cgroup m t = false).
    { destruct (is_exec_target_cgroup m t) eqn:Hgate; [| reflexivity].
      apply is_exec_target_cgroup_true in Hgate as [(target & Htarget & Hnz) Hallowed].
      destruct Hclosed as [H | [H | H]]; congruence. }
    split; [apply lsm_exec_not_monitored | apply trace_sys_enter_execve_not_monitored];
      exact Hgate.
Qed.

Lemma open_exec_gate_closed_witness :
  lsm_open {| target_cgroup := Some 7; allowed_cgroups := {[ 42 := 0 ]};
              policy_rules := ∅; num_rules := Some 0; default_policy := Some 0 |}
    (sample_task "cat") (sample_file "/etc/shadow" 1) true = ProbeResult 0 None.
Proof.
  destruct open_exec_gate_closed as [Hopen _].
  apply Hopen. right. right. discriminate.
Defined.

(** ** Reservation failure in the exec and network programs *)

(** X14. In the exec, connect and sendmsg programs the value returned when
    the ring-buffer reservation fails is the value returned when it
    succeeds, and a failed reservation emits no event; in the exec program
    it also leaves the correlation map untouched. *)
Theorem reservation_failure_keeps_verdict :
  (forall (m : exec_maps) (pend : gmap N pending_exec_args) (t : task)
          (bprm : linux_binprm),
     retval (lsm_exec m pend t bprm false).1 = retval (lsm_exec m pend t bprm true).1 /\
     emitted (lsm_exec m pend t bprm false).1 = None /\
     (lsm_exec m pend t bprm false).2 = pend) /\
  (forall (m : connect_maps) (t : task) (sock : socket) (address : sockaddr_mem),
     retval (lsm_connect m t sock address false) =
     retval (lsm_connect m t sock address true) /\
     emitted (lsm_connect m t sock address false) = None) /\
  (forall (m : connect_maps) (t : task) (sock : socket) (msg : msghdr),
     retval (lsm_sendmsg m t sock msg false) = retval (lsm_sendmsg m t sock msg true) /\
     emitted (lsm_sendmsg m t sock msg false) = None).
Proof.
  split; [| split].
  - intros m pend t bprm. split; [apply lsm_exec_verdict_reservation |].
    unfold lsm_exec. destruct (is_exec_target_cgroup m t); split; reflexivity.
  - intros m t sock address. split; [apply lsm_connect_verdict_reservation |].
    unfold lsm_connect. destruct (is_connect_target_cgroup m t); [| reflexivity].
    cbn [negb]. destruct (read_family address) as [family|]; [| reflexivity].
    destruct (negb (family =? AF_INET)); [reflexivity |].
    destruct (read_sockaddr_in address); reflexivity.
  - intros m t sock msg. split; [apply lsm_sendmsg_verdict_reservation |].
    unfold lsm_sendmsg. destruct (is_connect_target_cgroup m t); [| reflexivity].
    cbn [negb]. destruct msg as [| | msg_name]; try reflexivity.
    destruct (read_family msg_name) as [family|]; [| reflexivity].
    destruct (negb (family =? AF_INET)); [reflexivity |].
    destruct (read_sockaddr_in msg_name); reflexivity.
Qed.

(** ** The exec matcher without a deciding rule *)

(** X15. When no rule at an index below [min num_rules 64] decides (each
    has an unusable length, a path that does not match, or arguments that
    are not hit), the exec matcher returns the [exec_default_policy] slot,
    or 0 (deny) when the slot is absent; in particular with a rule count of
    0 or a missing count slot. *)
Theorem check_exec_policy_falls_to_default (m : exec_maps)
    (pend : gmap N pending_exec_args) (t : task) (observed : list ascii) :
  (forall (j : nat) (r : exec_policy_rule) (v : Z),
     N.of_nat j < N.min (default 0 (exec_num_rules m)) 64 ->
     exec_policy_rules m !! j = Some r ->
     ~ exec_rule_decides observed (pend !! current_pid t) r v) ->
  check_exec_policy m pend t observed =
  match exec_default_policy m with
  | Some d => int_of_u32 d
  | None => 0%Z
  end.
Proof.
  intros Hnone. rewrite check_exec_policy_first.
  rewrite first_decision_none; [reflexivity |].
  intros j Hj. unfold decision_at.
  destruct (exec_policy_rules m !! j) as [r|] eqn:Hr; [| reflexivity].
  apply exec_rule_body_None. intros v. apply (Hnone j r v); [lia | exact Hr].
Qed.

Lemma check_exec_policy_falls_to_default_witness :
  check_exec_policy (exec_table {[ 0%nat := exec_rule 0 "/bin/" ["--privileged"] ]} 1 (Some 1))
    {[ 100 := pending_args ["ls"; "--color"] ]} (sample_task "sh") (chars "/bin/ls")
  = int_of_u32 1.
Proof.
  apply (check_exec_policy_falls_to_default
           (exec_table {[ 0%nat := exec_rule 0 "/bin/" ["--privileged"] ]} 1 (Some 1))).
  intros j r v Hj Hr (_ & [[Hzero _] | (_ & _ & _ & pe & Hpe & p & a & Hp & Ha & Hlim & Heq)]).
  - destruct j as [|j]; [| cbn in Hj; lia].
    vm_compute in Hr. injection Hr as <-. discriminate Hzero.
  - destruct j as [|j]; [| cbn in Hj; lia].
    vm_compute in Hr. injection Hr as <-.
    vm_compute in Hpe. injection Hpe as <-.
    destruct p as [|p]; [| cbn in Hp; lia].
    destruct a as [|[|a]]; [lia | | cbn in Hlim; lia].
    specialize (Heq 2%nat eq_refl). discriminate Heq.
Defined.
